(** * Todo application: optimistic task list and API client

    A shallow embedding of the client-side task service of the todo
    application:

    - [types]            (src/unnamed/part_000): entities, DTOs, [computeStats];
    - [lib/api]          (second part of auth-provider.tsx): [ApiError],
                         [getAccessToken], [getUserId], [ApiClient];
    - [hooks/use-tasks]  (use-tasks.ts): the [useTasks] hook and its
                         optimistic update / rollback protocol.

    Numbers that identify tasks are integers ([Z]); strings are [string];
    JavaScript objects used as string-keyed maps (request headers) are
    [gmap string string]. *)

From Stdlib Require Import ZArith List Bool.
From stdpp Require Import base option list gmap strings pretty.

Import ListNotations.
Open Scope string_scope.
Open Scope Z_scope.
Open Scope list_scope.

(* ===================================================================== *)
(** * Core entities (types) *)
(* ===================================================================== *)

Module User.
(** [interface User]. *)
Record t : Type := mk {
  id    : string;
  email : string;
  name  : string
}.
End User.

Module Task.
(** [interface Task]; [description] is [string | null]. *)
Record t : Type := mk {
  id           : Z;
  user_id      : string;
  title        : string;
  description  : option string;
  is_completed : bool;
  created_at   : string;
  updated_at   : string
}.
End Task.

Module CreateTaskRequest.
(** [interface CreateTaskRequest]; [description?] is an optional
    property: [None] when the property is absent. *)
Record t : Type := mk {
  title       : string;
  description : option string
}.
End CreateTaskRequest.

Module UpdateTaskRequest.
(** [interface UpdateTaskRequest]. *)
Record t : Type := mk {
  title       : string;
  description : option string
}.
End UpdateTaskRequest.

Module TaskListResponse.
(** [interface TaskListResponse]. *)
Record t : Type := mk { tasks : list Task.t }.
End TaskListResponse.

Module ErrorResponse.
(** [interface ErrorResponse]. *)
Record t : Type := mk { detail : string }.
End ErrorResponse.

Module TaskStats.
(** [interface TaskStats]. *)
Record t : Type := mk {
  total     : nat;
  pending   : nat;
  completed : nat
}.
End TaskStats.

#[global] Instance User_eq_dec : EqDecision User.t.
Proof. solve_decision. Defined.

#[global] Instance Task_eq_dec : EqDecision Task.t.
Proof. solve_decision. Defined.

(** [computeStats(tasks)]. *)
Definition computeStats (tasks : list Task.t) : TaskStats.t :=
  {| TaskStats.total     := length tasks;
     TaskStats.completed := length (List.filter (fun t => Task.is_completed t) tasks);
     TaskStats.pending   := length (List.filter (fun t => negb (Task.is_completed t)) tasks) |}.

(** JavaScript truthiness of a [string | null] value: [null] and the
    empty string are falsy. *)
Definition truthy (s : option string) : bool :=
  match s with
  | Some s => negb (String.eqb s EmptyString)
  | None => false
  end.

(* ===================================================================== *)
(** * The state updaters of the hook (use-tasks.ts)

    Each definition is the arrow function handed to [setTasks]. *)
(* ===================================================================== *)

(** [{ ...task, ...data }] with [data : UpdateTaskRequest]: [title] is
    always overwritten, [description] only when the property is present. *)
Definition spread_update (task : Task.t) (data : UpdateTaskRequest.t) : Task.t :=
  {| Task.id           := Task.id task;
     Task.user_id      := Task.user_id task;
     Task.title        := UpdateTaskRequest.title data;
     Task.description  := match UpdateTaskRequest.description data with
                          | Some d => Some d
                          | None => Task.description task
                          end;
     Task.is_completed := Task.is_completed task;
     Task.created_at   := Task.created_at task;
     Task.updated_at   := Task.updated_at task |}.

(** [{ ...task, is_completed: !task.is_completed }]. *)
Definition spread_toggle (task : Task.t) : Task.t :=
  {| Task.id           := Task.id task;
     Task.user_id      := Task.user_id task;
     Task.title        := Task.title task;
     Task.description  := Task.description task;
     Task.is_completed := negb (Task.is_completed task);
     Task.created_at   := Task.created_at task;
     Task.updated_at   := Task.updated_at task |}.

(** createTask, lines 81-92:
    [prev => prev.some(t => t.id === newTask.id) ? prev : [newTask, ...prev]]. *)
Definition insert_created (newTask : Task.t) (prev : list Task.t) : list Task.t :=
  let exists_ := existsb (fun t => Task.id t =? Task.id newTask) prev in
  if exists_ then prev else newTask :: prev.

(** updateTask, lines 113-117:
    [prev.map(task => task.id === taskId ? { ...task, ...data } : task)]. *)
Definition optimistic_update (taskId : Z) (data : UpdateTaskRequest.t)
    (prev : list Task.t) : list Task.t :=
  map (fun task => if Task.id task =? taskId then spread_update task data else task) prev.

(** updateTask and toggleComplete, on success:
    [prev.map(task => task.id === taskId ? updatedTask : task)]. *)
Definition replace_confirmed (taskId : Z) (updatedTask : Task.t)
    (prev : list Task.t) : list Task.t :=
  map (fun task => if Task.id task =? taskId then updatedTask else task) prev.

(** deleteTask, line 142: [prev.filter(task => task.id !== taskId)]. *)
Definition optimistic_delete (taskId : Z) (prev : list Task.t) : list Task.t :=
  List.filter (fun task => negb (Task.id task =? taskId)) prev.

(** toggleComplete, lines 164-168. *)
Definition optimistic_toggle (taskId : Z) (prev : list Task.t) : list Task.t :=
  map (fun task => if Task.id task =? taskId then spread_toggle task else task) prev.

(* ===================================================================== *)
(** * Errors and settled promises (lib/api) *)
(* ===================================================================== *)

(** What a [catch (err)] can receive: an [ApiError(status, detail)], or
    any other exception (a rejected [fetch], a [SyntaxError] of
    [JSON.parse]); the code only tests [err instanceof ApiError]. *)
Inductive Exception : Type :=
| ApiError (status : Z) (detail : string)
| OtherError.

(** A settled promise. *)
Inductive Outcome (T : Type) : Type :=
| Resolved (v : T)
| Rejected (err : Exception).

Arguments Resolved {T} v.
Arguments Rejected {T} err.

(** The methods of the [api] singleton that the hook awaits, indexed by
    the type their promise is declared to resolve to. *)
Inductive ApiCall : Type -> Type :=
| GetTasks                                              : ApiCall TaskListResponse.t
| GetTask        (taskId : Z)                            : ApiCall Task.t
| CreateTask     (data : CreateTaskRequest.t)            : ApiCall Task.t
| UpdateTask     (taskId : Z) (data : UpdateTaskRequest.t) : ApiCall Task.t
| DeleteTask     (taskId : Z)                            : ApiCall unit
| ToggleComplete (taskId : Z)                            : ApiCall Task.t.

(* ===================================================================== *)
(** * The hook as a program over its effects (use-tasks.ts)

    An asynchronous callback of the hook is a tree of the effects it
    performs, in program order: writes to the three state cells, toasts,
    and one [await] of an API call whose continuation receives the
    settled promise.  [console.log] calls are debug output and are left
    out. *)
(* ===================================================================== *)

Inductive ToastMessage : Type :=
| ToastSuccess (message : string)
| ToastErrorMsg (message : string).

Inductive Hook (A : Type) : Type :=
| Return       (a : A)
| SetTasks     (updater : list Task.t -> list Task.t) (k : Hook A)
| SetIsLoading (b : bool) (k : Hook A)
| SetError     (e : option string) (k : Hook A)
| Toast        (m : ToastMessage) (k : Hook A)
| Await        {T : Type} (call : ApiCall T) (k : Outcome T -> Hook A).

Arguments Return {A} a.
Arguments SetTasks {A} updater k.
Arguments SetIsLoading {A} b k.
Arguments SetError {A} e k.
Arguments Toast {A} m k.
Arguments Await {A T} call k.

Fixpoint bind {A B : Type} (p : Hook A) (f : A -> Hook B) : Hook B :=
  match p with
  | Return a => f a
  | SetTasks u k => SetTasks u (bind k f)
  | SetIsLoading b k => SetIsLoading b (bind k f)
  | SetError e k => SetError e (bind k f)
  | Toast m k => Toast m (bind k f)
  | Await c k => Await c (fun r => bind (k r) f)
  end.

Declare Scope hook_scope.
Delimit Scope hook_scope with hook.
Notation "x <- p ;; q" := (bind p (fun x => q))
  (at level 100, p at next level, right associativity) : hook_scope.
Notation "p ;; q" := (bind p (fun _ => q))
  (at level 100, right associativity) : hook_scope.

(** [setTasks(prev => ...)], [setTasks(value)] and the other primitive
    calls as one-step programs. *)
Definition setTasksWith (updater : list Task.t -> list Task.t) : Hook unit :=
  SetTasks updater (Return tt).
Definition setTasks (value : list Task.t) : Hook unit :=
  SetTasks (fun _ => value) (Return tt).
Definition setIsLoading (b : bool) : Hook unit := SetIsLoading b (Return tt).
Definition setError (e : option string) : Hook unit := SetError e (Return tt).
Definition toast_success (m : string) : Hook unit := Toast (ToastSuccess m) (Return tt).
Definition toast_error (m : string) : Hook unit := Toast (ToastErrorMsg m) (Return tt).
Definition await {T} (call : ApiCall T) : Hook (Outcome T) := Await call Return.

(** The state held by one mounted [useTasks]: the three [useState] cells
    and, for observation, the toasts shown so far (oldest first). *)
Record HookState : Type := mkHookState {
  tasks     : list Task.t;
  isLoading : bool;
  error     : option string;
  toasts    : list ToastMessage
}.

(** State on mount: [useState([])], [useState(true)], [useState(null)]. *)
Definition initial_state : HookState :=
  {| tasks := []; isLoading := true; error := None; toasts := [] |}.

Definition with_tasks (s : HookState) (l : list Task.t) : HookState :=
  {| tasks := l; isLoading := isLoading s; error := error s; toasts := toasts s |}.

Section Callbacks.
Open Scope hook_scope.

(** [fetchTasks] (lines 45-66). *)
Definition fetchTasks : Hook unit :=
  setIsLoading true ;;
  setError None ;;
  r <- await GetTasks ;;
  match r with
  | Resolved response =>
      setTasks (TaskListResponse.tasks response)
  | Rejected (ApiError status detail) =>
      (* Don't show error for unauthenticated (handled by redirect) *)
      if negb (status =? 401)
      then setError (Some detail) ;; toast_error detail
      else Return tt
  | Rejected OtherError =>
      let message := "Failed to load tasks" in
      setError (Some message) ;; toast_error message
  end ;;
  (* finally *)
  setIsLoading false.

(** [createTask] (lines 74-104); it does not read [tasks]. *)
Definition createTask (data : CreateTaskRequest.t) : Hook (option Task.t) :=
  r <- await (CreateTask data) ;;
  match r with
  | Resolved newTask =>
      setTasksWith (insert_created newTask) ;;
      toast_success "Task created successfully" ;;
      Return (Some newTask)
  | Rejected (ApiError _ detail) =>
      toast_error detail ;; Return None
  | Rejected OtherError =>
      toast_error "Failed to create task" ;; Return None
  end.

(** The callbacks below are [useCallback(..., [tasks])]: [tasks] is the
    value of the state cell in the render that created the callback. *)
Variable tasks_ : list Task.t.

(** [updateTask] (lines 107-136). *)
Definition updateTask (taskId : Z) (data : UpdateTaskRequest.t) : Hook (option Task.t) :=
  let previousTasks := tasks_ in
  setTasksWith (optimistic_update taskId data) ;;
  r <- await (UpdateTask taskId data) ;;
  match r with
  | Resolved updatedTask =>
      setTasksWith (replace_confirmed taskId updatedTask) ;;
      toast_success "Task updated successfully" ;;
      Return (Some updatedTask)
  | Rejected err =>
      (* Rollback on error *)
      setTasks previousTasks ;;
      match err with
      | ApiError _ detail => toast_error detail
      | OtherError => toast_error "Failed to update task"
      end ;;
      Return None
  end.

(** [deleteTask] (lines 139-158). *)
Definition deleteTask (taskId : Z) : Hook bool :=
  let previousTasks := tasks_ in
  setTasksWith (optimistic_delete taskId) ;;
  r <- await (DeleteTask taskId) ;;
  match r with
  | Resolved _ =>
      toast_success "Task deleted successfully" ;;
      Return true
  | Rejected err =>
      (* Rollback on error *)
      setTasks previousTasks ;;
      match err with
      | ApiError _ detail => toast_error detail
      | OtherError => toast_error "Failed to delete task"
      end ;;
      Return false
  end.

(** [toggleComplete] (lines 161-186). *)
Definition toggleComplete (taskId : Z) : Hook (option Task.t) :=
  let previousTasks := tasks_ in
  setTasksWith (optimistic_toggle taskId) ;;
  r <- await (ToggleComplete taskId) ;;
  match r with
  | Resolved updatedTask =>
      setTasksWith (replace_confirmed taskId updatedTask) ;;
      Return (Some updatedTask)
  | Rejected err =>
      (* Rollback on error *)
      setTasks previousTasks ;;
      match err with
      | ApiError _ detail => toast_error detail
      | OtherError => toast_error "Failed to update task"
      end ;;
      Return None
  end.
End Callbacks.

(** What one render of [useTasks] returns (lines 188-198): the current
    cells, the derived [stats], and callbacks closed over this render's
    [tasks]. *)
Record UseTasksReturn : Type := mkUseTasksReturn {
  ret_tasks          : list Task.t;
  ret_stats          : TaskStats.t;
  ret_isLoading      : bool;
  ret_error          : option string;
  ret_createTask     : CreateTaskRequest.t -> Hook (option Task.t);
  ret_updateTask     : Z -> UpdateTaskRequest.t -> Hook (option Task.t);
  ret_deleteTask     : Z -> Hook bool;
  ret_toggleComplete : Z -> Hook (option Task.t);
  ret_refetch        : Hook unit
}.

Definition useTasks (s : HookState) : UseTasksReturn :=
  {| ret_tasks          := tasks s;
     ret_stats          := computeStats (tasks s);
     ret_isLoading      := isLoading s;
     ret_error          := error s;
     ret_createTask     := createTask;
     ret_updateTask     := updateTask (tasks s);
     ret_deleteTask     := deleteTask (tasks s);
     ret_toggleComplete := toggleComplete (tasks s);
     ret_refetch        := fetchTasks |}.

(* ===================================================================== *)
(** * Running a callback *)
(* ===================================================================== *)

(** A callback either has finished, or is suspended at its [await] with
    the request in flight. *)
Inductive Progress (A : Type) : Type :=
| Done     (s : HookState) (a : A)
| InFlight (s : HookState) {T : Type} (call : ApiCall T) (k : Outcome T -> Hook A).

Arguments Done {A} s a.
Arguments InFlight {A} s {T} call k.

(** Runs the synchronous prefix of a callback: every effect up to the
    first [await] (or to the end). *)
Fixpoint start {A : Type} (p : Hook A) (s : HookState) : Progress A :=
  match p with
  | Return a => Done s a
  | SetTasks u k => start k (with_tasks s (u (tasks s)))
  | SetIsLoading b k =>
      start k {| tasks := tasks s; isLoading := b; error := error s; toasts := toasts s |}
  | SetError e k =>
      start k {| tasks := tasks s; isLoading := isLoading s; error := e; toasts := toasts s |}
  | Toast m k =>
      start k {| tasks := tasks s; isLoading := isLoading s; error := error s;
                 toasts := toasts s ++ [m] |}
  | Await c k => InFlight s c k
  end.

(** The promise settles: the continuation runs from whatever the state
    is at that moment. *)
Definition resume {A T : Type} (k : Outcome T -> Hook A) (r : Outcome T)
    (s : HookState) : Progress A :=
  start (k r) s.

(** The list shown to the user while a callback is at [p]. *)
Definition shown {A : Type} (p : Progress A) : list Task.t :=
  match p with
  | Done s _ => tasks s
  | InFlight s _ _ => tasks s
  end.

Definition state_of {A : Type} (p : Progress A) : HookState :=
  match p with
  | Done s _ => s
  | InFlight s _ _ => s
  end.

(** The request a suspended callback is waiting for. *)
Inductive Request : Type :=
| Req {T : Type} (call : ApiCall T).

Definition pending_request {A : Type} (p : Progress A) : option Request :=
  match p with
  | Done _ _ => None
  | InFlight _ c _ => Some (Req c)
  end.

(** A network that answers every call: used to run a callback to its
    end with nothing else happening in between. *)
Definition Network : Type := forall T : Type, ApiCall T -> Outcome T.

Fixpoint run {A : Type} (p : Hook A) (net : Network) (s : HookState) : HookState * A :=
  match p with
  | Return a => (s, a)
  | SetTasks u k => run k net (with_tasks s (u (tasks s)))
  | SetIsLoading b k =>
      run k net {| tasks := tasks s; isLoading := b; error := error s; toasts := toasts s |}
  | SetError e k =>
      run k net {| tasks := tasks s; isLoading := isLoading s; error := e; toasts := toasts s |}
  | Toast m k =>
      run k net {| tasks := tasks s; isLoading := isLoading s; error := error s;
                   toasts := toasts s ++ [m] |}
  | Await c k => run (k (net _ c)) net s
  end.

(** A network on which every call is rejected with [err]. *)
Definition failing (err : Exception) : Network := fun _ _ => Rejected err.

(* ===================================================================== *)
(** * The API client (lib/api) *)
(* ===================================================================== *)

(** The ['user'] entry of [localStorage], kept in decoded form.
    [JSON.parse] and [JSON.stringify] are built-ins: an entry is either
    the text [JSON.stringify(userData)] that [login] and [register] store,
    or a text for which [getUserId] ends in [null] (the empty text, or a
    text on which [JSON.parse(userStr).id] throws).  A stored object
    without an [id] behaves as one whose [id] is the empty string: both
    are falsy for the callers of [getUserId]. *)
Inductive StoredUser : Type :=
| Stringified (u : User.t)
| Garbled.

(** The parts of [window] the client touches. *)
Record Window : Type := mkWindow {
  localStorage_access_token : option string;   (* localStorage.getItem('access_token') *)
  localStorage_user         : option StoredUser; (* localStorage.getItem('user') *)
  location_href             : string             (* window.location.href *)
}.

(** The JSON values exchanged with the task endpoints, as the client
    sees them after [JSON.parse]; [JTaskList] is the object [{ tasks }]
    that [getTasks] builds. *)
Inductive Json : Type :=
| JEmptyObject
| JTask (t : Task.t)
| JTaskArray (l : list Task.t)
| JError (e : ErrorResponse.t)
| JTaskList (tasks : Json).

(** The text of a response body. *)
Inductive Body : Type :=
| NoText               (* the empty text *)
| BadText              (* text that is not JSON *)
| Text (j : Json).     (* the JSON text of [j] *)

Record Response : Type := mkResponse {
  status : Z;
  body   : Body
}.

(** [response.ok]: the status is in the range 200-299. *)
Definition ok (r : Response) : bool := (200 <=? status r) && (status r <=? 299).

(** [JSON.stringify(data)], kept in decoded form. *)
Inductive RequestBody : Type :=
| CreateBody (data : CreateTaskRequest.t)
| UpdateBody (data : UpdateTaskRequest.t).

(** [RequestInit], the [options] of [request]. *)
Record RequestInit : Type := mkRequestInit {
  init_method  : option string;
  init_body    : option RequestBody;
  init_headers : gmap string string
}.

(** [options = {}]. *)
Definition no_options : RequestInit :=
  {| init_method := None; init_body := None; init_headers := ∅ |}.

(** One call of [fetch(url, init)]. *)
Record FetchRequest : Type := mkFetchRequest {
  url         : string;
  req_method  : option string;
  req_body    : option RequestBody;
  req_headers : gmap string string
}.

(** How a [fetch] promise settles. *)
Inductive FetchResult : Type :=
| FetchFailed
| Responded (response : Response).

(** The client's world: [window] ([None] when [typeof window] is
    ['undefined'], as on the server), and the requests sent so far
    (oldest first). *)
Record World : Type := mkWorld {
  window : option Window;
  sent   : list FetchRequest
}.

(** [getAccessToken()]. *)
Definition getAccessToken (w : World) : option string :=
  match window w with
  | None => None
  | Some win => localStorage_access_token win
  end.

(** [getUserId()]. *)
Definition getUserId (w : World) : option string :=
  match window w with
  | None => None
  | Some win =>
      match localStorage_user win with
      | None => None
      | Some (Stringified user) => Some (User.id user)
      | Some Garbled => None
      end
  end.

(** The 401 branch of [request] (lines 284-291). *)
Definition clear_and_redirect (w : World) : World :=
  match window w with
  | Some win =>
      {| window := Some {| localStorage_access_token := None;
                           localStorage_user := None;
                           location_href := "/login" |};
         sent := sent w |}
  | None => w
  end.

Section ApiClient.
(** [process.env.NEXT_PUBLIC_API_URL]. *)
Variable NEXT_PUBLIC_API_URL : option string.
(** The network: how the promise of each [fetch] settles. *)
Variable fetch : FetchRequest -> FetchResult.

Definition API_BASE : string :=
  match NEXT_PUBLIC_API_URL with
  | Some u => if truthy (Some u) then u else "http://localhost:8000"
  | None => "http://localhost:8000"
  end.

(** The [headers] object literal of [request] (lines 267-271); later
    spreads win, and [∪] on [gmap] prefers its left operand. *)
Definition request_headers (token : option string) (options : RequestInit)
    : gmap string string :=
  init_headers options
  ∪ match token with
    | Some t => if truthy token then {[ "Authorization" := "Bearer " +:+ t ]} else ∅
    | None => ∅
    end
  ∪ {[ "Content-Type" := "application/json" ]}.

(** [ApiClient.request] (lines 259-303). *)
Definition request (endpoint : string) (options : RequestInit) (w : World)
    : World * Outcome Json :=
  let token := getAccessToken w in
  let req := {| url := API_BASE +:+ endpoint;
                req_method := init_method options;
                req_body := init_body options;
                req_headers := request_headers token options |} in
  let w := {| window := window w; sent := sent w ++ [req] |} in
  match fetch req with
  | FetchFailed => (w, Rejected OtherError)
  | Responded response =>
      if negb (ok response) then
        let detail :=
          match body response with
          | Text (JError e) =>
              if truthy (Some (ErrorResponse.detail e))
              then ErrorResponse.detail e
              else "An error occurred"
          | _ => "An error occurred"
          end in
        let w := if status response =? 401 then clear_and_redirect w else w in
        (w, Rejected (ApiError (status response) detail))
      else
        match body response with
        | NoText => (w, Resolved JEmptyObject)
        | BadText => (w, Rejected OtherError)
        | Text j => (w, Resolved j)
        end
  end.

(** The guard that opens every task endpoint:
    [if (!userId) throw new ApiError(401, 'Not authenticated')]. *)
Definition with_user (w : World) (k : string -> World * Outcome Json)
    : World * Outcome Json :=
  match getUserId w with
  | Some userId =>
      if negb (truthy (Some userId))
      then (w, Rejected (ApiError 401 "Not authenticated"))
      else k userId
  | None => (w, Rejected (ApiError 401 "Not authenticated"))
  end.

(** [getTasks] (lines 312-318). *)
Definition getTasks (w : World) : World * Outcome Json :=
  with_user w (fun userId =>
    match request ("/api/" +:+ userId +:+ "/tasks") no_options w with
    | (w, Resolved tasks) => (w, Resolved (JTaskList tasks))
    | (w, Rejected err) => (w, Rejected err)
    end).

(** [getTask] (lines 323-327). *)
Definition getTask (taskId : Z) (w : World) : World * Outcome Json :=
  with_user w (fun userId =>
    request ("/api/" +:+ userId +:+ "/tasks/" +:+ pretty taskId) no_options w).

(** [createTask] (lines 332-339). *)
Definition api_createTask (data : CreateTaskRequest.t) (w : World)
    : World * Outcome Json :=
  with_user w (fun userId =>
    request ("/api/" +:+ userId +:+ "/tasks")
      {| init_method := Some "POST"; init_body := Some (CreateBody data);
         init_headers := ∅ |} w).

(** [updateTask] (lines 344-351). *)
Definition api_updateTask (taskId : Z) (data : UpdateTaskRequest.t) (w : World)
    : World * Outcome Json :=
  with_user w (fun userId =>
    request ("/api/" +:+ userId +:+ "/tasks/" +:+ pretty taskId)
      {| init_method := Some "PUT"; init_body := Some (UpdateBody data);
         init_headers := ∅ |} w).

(** [deleteTask] (lines 356-362); the awaited value is dropped. *)
Definition api_deleteTask (taskId : Z) (w : World) : World * Outcome Json :=
  with_user w (fun userId =>
    request ("/api/" +:+ userId +:+ "/tasks/" +:+ pretty taskId)
      {| init_method := Some "DELETE"; init_body := None; init_headers := ∅ |} w).

(** [toggleComplete] (lines 367-373). *)
Definition api_toggleComplete (taskId : Z) (w : World) : World * Outcome Json :=
  with_user w (fun userId =>
    request ("/api/" +:+ userId +:+ "/tasks/" +:+ pretty taskId +:+ "/complete")
      {| init_method := Some "PATCH"; init_body := None; init_headers := ∅ |} w).

(** The method of [api] behind each awaited call. *)
Definition api {T : Type} (call : ApiCall T) : World -> World * Outcome Json :=
  match call with
  | GetTasks => getTasks
  | GetTask taskId => getTask taskId
  | CreateTask data => api_createTask data
  | UpdateTask taskId data => api_updateTask taskId data
  | DeleteTask taskId => api_deleteTask taskId
  | ToggleComplete taskId => api_toggleComplete taskId
  end.

(** The unchecked cast [as T] of a resolved value to the declared
    result type; [None] when the JSON does not have that shape
    ([deleteTask] drops its value, so any value will do). *)
Definition as_declared {T : Type} (call : ApiCall T) (j : Json) : option T :=
  match call in ApiCall T return option T with
  | GetTasks =>
      match j with
      | JTaskList (JTaskArray l) => Some {| TaskListResponse.tasks := l |}
      | _ => None
      end
  | DeleteTask _ => Some tt
  | GetTask _ | CreateTask _ | UpdateTask _ _ | ToggleComplete _ =>
      match j with
      | JTask t => Some t
      | _ => None
      end
  end.

(** A callback of the hook run against the client: every [await] is
    served by the corresponding method of [api].  The result is [None]
    when a promise resolves to a value outside its declared type. *)
Fixpoint run_client {A : Type} (p : Hook A) (w : World) (s : HookState)
    : option (World * HookState * A) :=
  match p with
  | Return a => Some (w, s, a)
  | SetTasks u k => run_client k w (with_tasks s (u (tasks s)))
  | SetIsLoading b k =>
      run_client k w
        {| tasks := tasks s; isLoading := b; error := error s; toasts := toasts s |}
  | SetError e k =>
      run_client k w
        {| tasks := tasks s; isLoading := isLoading s; error := e; toasts := toasts s |}
  | Toast m k =>
      run_client k w
        {| tasks := tasks s; isLoading := isLoading s; error := error s;
           toasts := toasts s ++ [m] |}
  | Await c k =>
      match api c w with
      | (w', Rejected err) => run_client (k (Rejected err)) w' s
      | (w', Resolved j) =>
          match as_declared c j with
          | Some v => run_client (k (Resolved v)) w' s
          | None => None
          end
      end
  end.
End ApiClient.

(* ===================================================================== *)
(** * The backend: authorization gate and data access layer *)
(* ===================================================================== *)

(** The backend (backend/app: auth.py, routers/tasks.py, models.py) is
    not among the sources; only its caller, the API client above, is.
    Everything in this module is modelled from the spec. *)

Module Backend.

(** Modelled from the spec: the task rows of the REST table of section 6
    (the routes of backend/app/routers/tasks.py): what a request under
    [/api/{user_id}/tasks] asks for. *)
Inductive Operation : Type :=
| ListTasks
| CreateTaskOp (data : CreateTaskRequest.t)
| ReadTask (taskId : Z)
| UpdateTaskOp (taskId : Z) (data : UpdateTaskRequest.t)
| DeleteTaskOp (taskId : Z)
| CompleteTask (taskId : Z).

(** Modelled from the spec: a protected request as the gate of section
    4.1 sees it (the FastAPI request is not among the sources): bearer
    token, target user id of the path, and the operation. *)
Record HttpRequest : Type := mkHttpRequest {
  bearer      : option string;   (* Authorization: Bearer <token> *)
  target_user : string;          (* {user_id} of the path *)
  operation   : Operation
}.

(** Modelled from the spec: the error taxonomy of section 7 (the
    HTTPException responses of the backend): authentication failure,
    authorization failure, not found. *)
Inductive Failure : Type :=
| AuthenticationError    (* 401 *)
| AuthorizationError     (* 403 *)
| NotFound.

(** Modelled from the spec: the response column of the REST table of
    section 6 (backend/app/schemas.py is not among the sources). *)
Inductive HttpResponse : Type :=
| TaskRows (rows : list Task.t)
| TaskRow (row : Task.t)
| EmptyBody
| Failed (e : Failure).

Section Gate.
(** Modelled from the spec: token verification against the shared
    secret (section 4.1, step 1): the subject claim of a token whose
    signature and expiry are valid, [None] otherwise.  The JWT library
    is an external collaborator. *)
Variable verify : string -> option string.
(** Modelled from the spec: the timestamp the server writes into rows
    it creates or changes (section 3, created/updated timestamps). *)
Variable timestamp : string.

(** Modelled from the spec: the authenticated subject of a request, if
    any (section 4.1, steps 1 and 2; backend/app/auth.py). *)
Definition authenticated_subject (req : HttpRequest) : option string :=
  match bearer req with
  | None => None
  | Some token => verify token
  end.

(** Modelled from the spec: the Authorization Gate of section 4.1
    (backend/app/auth.py is not among the sources).  (1) verify
    signature and expiry, failing with an authentication error;
    (2) compare the subject claim byte for byte with the target user
    id, failing with an authorization error on mismatch; (3) on
    success hand the verified identity on as the scoping key. *)
Definition gate (req : HttpRequest) : Failure + string :=
  match authenticated_subject req with
  | None => inl AuthenticationError
  | Some subject =>
      if String.eqb subject (target_user req)
      then inr subject
      else inl AuthorizationError
  end.

(** Modelled from the spec: the row filter of every query of the Data
    Access Layer, [WHERE user_id = owner] (and [id = taskId] for the
    single-row operations). *)
Definition owned_by (owner : string) (row : Task.t) : bool :=
  String.eqb (Task.user_id row) owner.

(** Modelled from the spec: the filter of the single-row queries. *)
Definition selects (owner : string) (taskId : Z) (row : Task.t) : bool :=
  owned_by owner row && (Task.id row =? taskId).

(** Modelled from the spec: the server-generated numeric id of a new
    row (section 3; an auto-increment key in backend/app/models.py). *)
Definition next_id (db : list Task.t) : Z :=
  1 + fold_right Z.max 0 (map Task.id db).

(** Modelled from the spec: a changed row gets a new update timestamp
    (section 3). *)
Definition stamp (row : Task.t) : Task.t :=
  {| Task.id := Task.id row; Task.user_id := Task.user_id row;
     Task.title := Task.title row; Task.description := Task.description row;
     Task.is_completed := Task.is_completed row;
     Task.created_at := Task.created_at row; Task.updated_at := timestamp |}.

(** Modelled from the spec: the Data Access Layer of section 2 and
    section 4.1 (backend/app/routers/tasks.py is not among the
    sources): persistence operations scoped to one user's rows, the
    verified identity being the scoping key of every query. *)
Definition data_access (owner : string) (op : Operation) (db : list Task.t)
    : list Task.t * HttpResponse :=
  match op with
  | ListTasks => (db, TaskRows (List.filter (owned_by owner) db))
  | CreateTaskOp data =>
      let row := {| Task.id := next_id db; Task.user_id := owner;
                    Task.title := CreateTaskRequest.title data;
                    Task.description := CreateTaskRequest.description data;
                    Task.is_completed := false;
                    Task.created_at := timestamp; Task.updated_at := timestamp |} in
      ((db ++ [row])%list, TaskRow row)
  | ReadTask taskId =>
      match find (selects owner taskId) db with
      | Some row => (db, TaskRow row)
      | None => (db, Failed NotFound)
      end
  | UpdateTaskOp taskId data =>
      match find (selects owner taskId) db with
      | Some row =>
          let row' := stamp (spread_update row data) in
          (map (fun r => if selects owner taskId r
                         then stamp (spread_update r data) else r) db,
           TaskRow row')
      | None => (db, Failed NotFound)
      end
  | DeleteTaskOp taskId =>
      match find (selects owner taskId) db with
      | Some _ => (List.filter (fun r => negb (selects owner taskId r)) db, EmptyBody)
      | None => (db, Failed NotFound)
      end
  | CompleteTask taskId =>
      match find (selects owner taskId) db with
      | Some row =>
          let row' := stamp (spread_toggle row) in
          (map (fun r => if selects owner taskId r
                         then stamp (spread_toggle r) else r) db,
           TaskRow row')
      | None => (db, Failed NotFound)
      end
  end.

(** Modelled from the spec: the control flow of section 2 for a
    protected request (the route handlers of the backend): the gate,
    then the scoped operation. *)
Definition handle (req : HttpRequest) (db : list Task.t)
    : list Task.t * HttpResponse :=
  match gate req with
  | inl e => (db, Failed e)
  | inr identity => data_access identity (operation req) db
  end.

(** Modelled from the spec: the rows a response discloses. *)
Definition rows_read (resp : HttpResponse) : list Task.t :=
  match resp with
  | TaskRows rows => rows
  | TaskRow row => [row]
  | EmptyBody | Failed _ => []
  end.

(** Modelled from the spec: [row] is read or mutated by [req] on [db]
    (section 3, invariant): it is disclosed by the response, or it is a
    stored row that the request removed or changed, or a row that the
    request wrote. *)
Definition touches (req : HttpRequest) (db : list Task.t) (row : Task.t) : Prop :=
  let '(db', resp) := handle req db in
  row ∈ rows_read resp
  ∨ (row ∈ db ∧ row ∉ db')
  ∨ (row ∈ db' ∧ row ∉ db).
End Gate.
End Backend.


(* ===================================================================== *)
(** * Vocabulary of the properties *)
(* ===================================================================== *)

(** The number of tasks of a list that satisfy [p], by recursion on the
    list. *)
Fixpoint count_tasks (p : Task.t -> bool) (l : list Task.t) : nat :=
  match l with
  | [] => O
  | t :: l => if p t then S (count_tasks p l) else count_tasks p l
  end.

(** The number of tasks of a list whose id is [i]. *)
Definition count_id (i : Z) (l : list Task.t) : nat :=
  count_tasks (fun t => Task.id t =? i) l.

(** What happens between the moment a callback suspends and the moment
    its promise settles: the promise settles as [net] says, after other
    callbacks have taken the state from [s] to [meanwhile s]. *)
Definition settle {A : Type} (p : Progress A) (net : Network)
    (meanwhile : HookState -> HookState) : Progress A :=
  match p with
  | Done s a => Done s a
  | InFlight s c k => resume k (net _ c) (meanwhile s)
  end.

(** A network on which [getTasks] resolves to [response]. *)
Definition fetching (response : TaskListResponse.t) : Network :=
  fun T call =>
    match call in ApiCall T return Outcome T with
    | GetTasks => Resolved response
    | _ => Rejected OtherError
    end.

(** A server that answers every request with the same response. *)
Definition answering (response : Response) : FetchRequest -> FetchResult :=
  fun _ => Responded response.

(** Sample data for the examples. *)
Definition alice : User.t :=
  {| User.id := "alice"; User.email := "alice@example.org"; User.name := "Alice" |}.

Definition sample_task (i : Z) (title : string) (completed : bool) : Task.t :=
  {| Task.id := i; Task.user_id := "alice"; Task.title := title;
     Task.description := None; Task.is_completed := completed;
     Task.created_at := "2026-01-01T00:00:00Z";
     Task.updated_at := "2026-01-01T00:00:00Z" |}.

Definition buy_milk : CreateTaskRequest.t :=
  {| CreateTaskRequest.title := "Buy milk"; CreateTaskRequest.description := None |}.

Definition rename_to (title : string) : UpdateTaskRequest.t :=
  {| UpdateTaskRequest.title := title; UpdateTaskRequest.description := None |}.

(** A browser in which Alice is logged in. *)
Definition logged_in : World :=
  {| window := Some {| localStorage_access_token := Some "jwt-alice";
                       localStorage_user := Some (Stringified alice);
                       location_href := "/dashboard" |};
     sent := [] |}.

(** The same browser after the access token alone has been lost. *)
Definition user_without_token : World :=
  {| window := Some {| localStorage_access_token := None;
                       localStorage_user := Some (Stringified alice);
                       location_href := "/dashboard" |};
     sent := [] |}.

(** The backend's answer to an expired token. *)
Definition unauthorized : Response :=
  {| status := 401;
     body := Text (JError {| ErrorResponse.detail := "Token has expired" |}) |}.

(** A token verifier for the examples: it accepts two tokens. *)
Definition sample_verify (token : string) : option string :=
  if String.eqb token "jwt-alice" then Some "alice"
  else if String.eqb token "jwt-bob" then Some "bob"
  else None.

(** A table with one row of Alice and one of Bob. *)
Definition sample_db : list Task.t :=
  [ sample_task 1 "Walk" false;
    {| Task.id := 2; Task.user_id := "bob"; Task.title := "Read";
       Task.description := None; Task.is_completed := true;
       Task.created_at := "2026-01-02T00:00:00Z";
       Task.updated_at := "2026-01-02T00:00:00Z" |} ].

(* ===================================================================== *)
(** * The task list component (components/features/task-list.tsx)

    A component is the view it returns for its props; the event handlers
    ([onToggle], [onEdit], [onDelete], [onCreateTask]) and the animation
    wrappers are passed through unchanged and are left out. *)
(* ===================================================================== *)

(** [type TaskFilter = 'all' | 'pending' | 'completed']. *)
Inductive TaskFilter : Type :=
| FilterAll
| FilterPending
| FilterCompleted.

(** [filteredTasks] of [TaskListWithFilters] (lines 148-157). *)
Definition filteredTasks (filter : TaskFilter) (tasks : list Task.t) : list Task.t :=
  match filter with
  | FilterPending => List.filter (fun task => negb (Task.is_completed task)) tasks
  | FilterCompleted => List.filter (fun task => Task.is_completed task) tasks
  | FilterAll => tasks
  end.

(** [emptyMessage] of [TaskListWithFilters] (lines 160-169). *)
Definition emptyMessage (filter : TaskFilter) : string :=
  match filter with
  | FilterPending => "No pending tasks"
  | FilterCompleted => "No completed tasks"
  | FilterAll => "No tasks yet"
  end.

(** [emptyDescription] of [TaskListWithFilters] (lines 171-180). *)
Definition emptyDescription (filter : TaskFilter) : string :=
  match filter with
  | FilterPending => "You've completed all your tasks! Great job!"
  | FilterCompleted => "You haven't completed any tasks yet. Keep going!"
  | FilterAll => "Create your first task to get started and stay organized."
  end.

(** [TaskListProps] without the handlers; an optional prop is [None]
    when it is not passed. *)
Record TaskListProps : Type := mkTaskListProps {
  props_tasks            : list Task.t;
  props_isLoading        : option bool;
  props_emptyMessage     : option string;
  props_emptyDescription : option string
}.

(** What [TaskList] returns: the skeleton with its placeholder keys, the
    empty state with its texts, or one card per task under the key
    [task.id], in list order. *)
Inductive TaskListView : Type :=
| LoadingSkeleton (placeholders : list Z)
| EmptyState (title description actionLabel : string)
| TaskCards (cards : list (Z * Task.t)).

(** [TaskList] (lines 77-131), with the defaults of its parameter list. *)
Definition TaskList (props : TaskListProps) : TaskListView :=
  let isLoading := default false (props_isLoading props) in
  let emptyMessage := default "No tasks yet" (props_emptyMessage props) in
  let emptyDescription :=
    default "Create your first task to get started and stay organized."
            (props_emptyDescription props) in
  if isLoading then LoadingSkeleton [1; 2; 3; 4]
  else if Nat.eqb (length (props_tasks props)) 0
  then EmptyState emptyMessage emptyDescription "Create Task"
  else TaskCards (map (fun task => (Task.id task, task)) (props_tasks props)).

(** [TaskListWithFilters] (lines 142-190): the remaining props are
    spread first, then [tasks], [emptyMessage] and [emptyDescription]. *)
Definition TaskListWithFilters (tasks : list Task.t) (filter : TaskFilter)
    (isLoading : option bool) : TaskListView :=
  TaskList {| props_tasks := filteredTasks filter tasks;
              props_isLoading := isLoading;
              props_emptyMessage := Some (emptyMessage filter);
              props_emptyDescription := Some (emptyDescription filter) |}.

(* ===================================================================== *)
(** * The auth provider (components/providers/auth-provider.tsx) *)
(* ===================================================================== *)

(** A value caught by [catch (err)]: an [Error] with its message, or
    something that is not an [Error]. *)
Inductive Thrown : Type :=
| ErrorObject (message : string)
| NotAnError.

(** The body of a request to the auth routes ([JSON.stringify] of the
    object literal, kept decoded). *)
Inductive AuthBody : Type :=
| LoginBody (email password : string)
| RegisterBody (name email password : string).

(** One call of [fetch] by the provider. *)
Record AuthRequest : Type := mkAuthRequest {
  auth_url    : string;
  auth_method : string;
  auth_body   : option AuthBody
}.

(** How the two awaits of [login] and [register] ([fetch], then
    [response.json()]) turn out.  A response that is [ok] carries
    [{ user, token }]; one that is not carries an optional [error]. *)
Inductive AuthReply : Type :=
| AuthFetchRejected (err : Thrown)        (* the fetch promise rejects *)
| AuthBodyRejected (err : Thrown)         (* reading the body throws *)
| AuthRefused (error : option string)     (* !response.ok, data.error *)
| AuthGranted (user : User.t) (token : string).

(** How the single await of [logout] turns out. *)
Inductive LogoutReply : Type :=
| LogoutFetchRejected (err : Thrown)
| LogoutResponded.

(** Everything the provider reads and writes: [localStorage] and the
    location (the [Window] of the API client), the [access_token]
    cookie, the two state cells, the toasts shown, the [router.push]
    calls and the requests sent (oldest first). *)
Record AuthPage : Type := mkAuthPage {
  ap_window    : Window;
  ap_cookie    : option string;
  ap_user      : option User.t;
  ap_isLoading : bool;
  ap_toasts    : list ToastMessage;
  ap_pushed    : list string;
  ap_requests  : list AuthRequest
}.

(** The provider on mount: [useState(null)], [useState(true)]. *)
Definition mount (win : Window) (cookie : option string) : AuthPage :=
  {| ap_window := win; ap_cookie := cookie; ap_user := None; ap_isLoading := true;
     ap_toasts := []; ap_pushed := []; ap_requests := [] |}.

Definition ap_setUser (user : option User.t) (p : AuthPage) : AuthPage :=
  {| ap_window := ap_window p; ap_cookie := ap_cookie p; ap_user := user;
     ap_isLoading := ap_isLoading p; ap_toasts := ap_toasts p;
     ap_pushed := ap_pushed p; ap_requests := ap_requests p |}.

Definition ap_setIsLoading (b : bool) (p : AuthPage) : AuthPage :=
  {| ap_window := ap_window p; ap_cookie := ap_cookie p; ap_user := ap_user p;
     ap_isLoading := b; ap_toasts := ap_toasts p;
     ap_pushed := ap_pushed p; ap_requests := ap_requests p |}.

Definition ap_toast (m : ToastMessage) (p : AuthPage) : AuthPage :=
  {| ap_window := ap_window p; ap_cookie := ap_cookie p; ap_user := ap_user p;
     ap_isLoading := ap_isLoading p; ap_toasts := ap_toasts p ++ [m];
     ap_pushed := ap_pushed p; ap_requests := ap_requests p |}.

Definition ap_push (path : string) (p : AuthPage) : AuthPage :=
  {| ap_window := ap_window p; ap_cookie := ap_cookie p; ap_user := ap_user p;
     ap_isLoading := ap_isLoading p; ap_toasts := ap_toasts p;
     ap_pushed := ap_pushed p ++ [path]; ap_requests := ap_requests p |}.

Definition ap_fetch (req : AuthRequest) (p : AuthPage) : AuthPage :=
  {| ap_window := ap_window p; ap_cookie := ap_cookie p; ap_user := ap_user p;
     ap_isLoading := ap_isLoading p; ap_toasts := ap_toasts p;
     ap_pushed := ap_pushed p; ap_requests := ap_requests p ++ [req] |}.

(** [localStorage.setItem('access_token', token)],
    [localStorage.setItem('user', JSON.stringify(userData))] and the
    assignment of the [access_token] cookie. *)
Definition ap_store (user : User.t) (token : string) (p : AuthPage) : AuthPage :=
  {| ap_window := {| localStorage_access_token := Some token;
                     localStorage_user := Some (Stringified user);
                     location_href := location_href (ap_window p) |};
     ap_cookie := Some token; ap_user := ap_user p;
     ap_isLoading := ap_isLoading p; ap_toasts := ap_toasts p;
     ap_pushed := ap_pushed p; ap_requests := ap_requests p |}.

(** The two [localStorage.removeItem] calls. *)
Definition ap_removeItems (p : AuthPage) : AuthPage :=
  {| ap_window := {| localStorage_access_token := None;
                     localStorage_user := None;
                     location_href := location_href (ap_window p) |};
     ap_cookie := ap_cookie p; ap_user := ap_user p;
     ap_isLoading := ap_isLoading p; ap_toasts := ap_toasts p;
     ap_pushed := ap_pushed p; ap_requests := ap_requests p |}.

(** [document.cookie = 'access_token=; path=/; max-age=0']. *)
Definition ap_dropCookie (p : AuthPage) : AuthPage :=
  {| ap_window := ap_window p; ap_cookie := None; ap_user := ap_user p;
     ap_isLoading := ap_isLoading p; ap_toasts := ap_toasts p;
     ap_pushed := ap_pushed p; ap_requests := ap_requests p |}.

(** Which text a [Garbled] ['user'] entry stands for; [checkSession]
    tells the three apart. *)
Inductive GarbledText : Type :=
| GarbledEmpty       (* the empty text: falsy *)
| GarbledNull        (* the text [null]: parses, to [null] *)
| GarbledSyntax.     (* a text on which [JSON.parse] throws *)

(** [checkSession], the effect run on mount (lines 47-66). *)
Definition checkSession (garbled : GarbledText) (p : AuthPage) : AuthPage :=
  let token := localStorage_access_token (ap_window p) in
  let storedUser := localStorage_user (ap_window p) in
  let p :=
    if truthy token then
      match storedUser with
      | None => p
      | Some (Stringified user) => ap_setUser (Some user) p
      | Some Garbled =>
          match garbled with
          | GarbledEmpty => p
          | GarbledNull => ap_setUser None p
          | GarbledSyntax => ap_removeItems p    (* catch *)
          end
      end
    else p in
  (* finally *)
  ap_setIsLoading false p.

(** The [catch] of [login] and [register]: the message shown. *)
Definition shown_message (err : Thrown) (fallback : string) : string :=
  match err with
  | ErrorObject message => message
  | NotAnError => fallback
  end.

(** [login(email, password)] (lines 69-103).  The result is the state
    after [finally], and the error thrown again by the [catch], if any. *)
Definition login (email password : string) (reply : AuthReply) (p : AuthPage)
    : AuthPage * option Thrown :=
  let p := ap_setIsLoading true p in
  let p := ap_fetch {| auth_url := "/api/auth/login"; auth_method := "POST";
                       auth_body := Some (LoginBody email password) |} p in
  (* try *)
  let attempt : AuthPage + Thrown :=
    match reply with
    | AuthFetchRejected err => inr err
    | AuthBodyRejected err => inr err
    | AuthRefused error =>
        inr (ErrorObject (if truthy error then default "Login failed" error
                          else "Login failed"))
    | AuthGranted userData token =>
        inl (ap_push "/dashboard"
               (ap_toast (ToastSuccess "Welcome back! Logged in successfully.")
                  (ap_setUser (Some userData) (ap_store userData token p))))
    end in
  match attempt with
  | inl p => (ap_setIsLoading false p, None)
  | inr err =>
      (* catch, then finally *)
      (ap_setIsLoading false
         (ap_toast (ToastErrorMsg
                      (shown_message err "Invalid email or password. Please try again."))
            p),
       Some err)
  end.

(** [register(name, email, password)] (lines 106-140). *)
Definition register (name email password : string) (reply : AuthReply) (p : AuthPage)
    : AuthPage * option Thrown :=
  let p := ap_setIsLoading true p in
  let p := ap_fetch {| auth_url := "/api/auth/register"; auth_method := "POST";
                       auth_body := Some (RegisterBody name email password) |} p in
  (* try *)
  let attempt : AuthPage + Thrown :=
    match reply with
    | AuthFetchRejected err => inr err
    | AuthBodyRejected err => inr err
    | AuthRefused error =>
        inr (ErrorObject (if truthy error then default "Registration failed" error
                          else "Registration failed"))
    | AuthGranted userData token =>
        inl (ap_push "/dashboard"
               (ap_toast (ToastSuccess "Account created successfully!")
                  (ap_setUser (Some userData) (ap_store userData token p))))
    end in
  match attempt with
  | inl p => (ap_setIsLoading false p, None)
  | inr err =>
      (* catch, then finally *)
      (ap_setIsLoading false
         (ap_toast (ToastErrorMsg
                      (shown_message err "Registration failed. Please try again."))
            p),
       Some err)
  end.

(** [logout()] (lines 143-157): nothing catches a rejected [fetch]. *)
Definition logout (reply : LogoutReply) (p : AuthPage) : AuthPage * option Thrown :=
  let p := ap_fetch {| auth_url := "/api/auth/logout"; auth_method := "POST";
                       auth_body := None |} p in
  match reply with
  | LogoutFetchRejected err => (p, Some err)
  | LogoutResponded =>
      (ap_push "/"
         (ap_toast (ToastSuccess "Logged out successfully.")
            (ap_setUser None (ap_dropCookie (ap_removeItems p)))),
       None)
  end.

(** The fields of [AuthContextValue] that are data (lines 159-169). *)
Record AuthContext : Type := mkAuthContext {
  ctx_user            : option User.t;
  ctx_isLoading       : bool;
  ctx_isAuthenticated : bool
}.

Definition AuthProvider_value (p : AuthPage) : AuthContext :=
  {| ctx_user := ap_user p;
     ctx_isLoading := ap_isLoading p;
     ctx_isAuthenticated := match ap_user p with Some _ => true | None => false end |}.

(** What [ProtectedRoute] returns. *)
Inductive Rendered : Type :=
| RenderFallback
| RenderSpinner
| RenderNothing
| RenderChildren.

(** The effect of [ProtectedRoute] (lines 191-195): the path pushed, if
    any. *)
Definition ProtectedRoute_effect (ctx : AuthContext) : option string :=
  if negb (ctx_isLoading ctx) && negb (ctx_isAuthenticated ctx)
  then Some "/login"
  else None.

(** [ProtectedRoute] (lines 187-210); [fallback] says whether a truthy
    [fallback] prop was passed. *)
Definition ProtectedRoute (fallback : bool) (ctx : AuthContext) : Rendered :=
  if ctx_isLoading ctx then (if fallback then RenderFallback else RenderSpinner)
  else if negb (ctx_isAuthenticated ctx) then RenderNothing
  else RenderChildren.

(** [DashboardLayout] (app/(dashboard)/layout.tsx): [ProtectedRoute]
    without fallback, inside [AuthProvider]; what it renders and where
    it sends the browser. *)
Definition DashboardLayout (p : AuthPage) : Rendered * option string :=
  let ctx := AuthProvider_value p in
  (ProtectedRoute false ctx, ProtectedRoute_effect ctx).

(** The world the API client sees on a page. *)
Definition client_world (p : AuthPage) (sent_ : list FetchRequest) : World :=
  {| window := Some (ap_window p); sent := sent_ |}.

(* ===================================================================== *)
(** * Further vocabulary *)
(* ===================================================================== *)

(** A network on which every call that is declared to resolve to a task
    resolves to [t], and [deleteTask] resolves. *)
Definition confirming (t : Task.t) : Network :=
  fun T call =>
    match call in ApiCall T return Outcome T with
    | GetTasks => Rejected OtherError
    | GetTask _ => Resolved t
    | CreateTask _ => Resolved t
    | UpdateTask _ _ => Resolved t
    | DeleteTask _ => Resolved tt
    | ToggleComplete _ => Resolved t
    end.

(** The window after the 401 branch of [request]. *)
Definition cleared_window : Window :=
  {| localStorage_access_token := None; localStorage_user := None;
     location_href := "/login" |}.

(** The integers that a JavaScript number holds exactly and that a
    template literal prints in plain decimal, as [pretty] does:
    [Number.MIN_SAFE_INTEGER] to [Number.MAX_SAFE_INTEGER]. *)
Definition safe_integer (n : Z) : Prop := - 2 ^ 53 < n < 2 ^ 53.

(** The ids of a list, in order. *)
Definition ids (l : list Task.t) : list Z := map Task.id l.

(** A logged-out page in a browser with empty storage. *)
Definition fresh_page : AuthPage :=
  mount {| localStorage_access_token := None; localStorage_user := None;
           location_href := "/login" |} None.

(* ===================================================================== *)
(** * Statistics *)
(* ===================================================================== *)

Lemma length_filter_count (p : Task.t -> bool) (l : list Task.t) :
  length (List.filter p l) = count_tasks p l.
Proof.
  induction l as [|t l IH]; simpl; [reflexivity|].
  destruct (p t); simpl; congruence.
Qed.

Lemma count_tasks_split (p : Task.t -> bool) (l : list Task.t) :
  (count_tasks (fun t => negb (p t)) l + count_tasks p l = length l)%nat.
Proof.
  induction l as [|t l IH]; simpl; [reflexivity|].
  destruct (p t); simpl; lia.
Qed.

(** C9. For every task list, [computeStats] returns [total] equal to the
    length of the list, [completed] equal to the number of tasks whose
    [is_completed] is true, [pending] equal to the number whose
    [is_completed] is false, and so [pending + completed = total]. *)
Theorem computeStats_counts (l : list Task.t) :
  let stats := computeStats l in
  TaskStats.total stats = length l
  ∧ TaskStats.completed stats = count_tasks (fun t => Task.is_completed t) l
  ∧ TaskStats.pending stats = count_tasks (fun t => negb (Task.is_completed t)) l
  ∧ (TaskStats.pending stats + TaskStats.completed stats = TaskStats.total stats)%nat.
Proof.
  unfold computeStats; simpl.
  rewrite !length_filter_count.
  repeat split.
  apply (count_tasks_split (fun t => Task.is_completed t)).
Qed.

(* ===================================================================== *)
(** * The updaters as list transformations *)
(* ===================================================================== *)

Lemma spread_toggle_involutive (task : Task.t) :
  spread_toggle (spread_toggle task) = task.
Proof. destruct task; unfold spread_toggle; simpl. by rewrite negb_involutive. Qed.

Lemma spread_toggle_id (task : Task.t) : Task.id (spread_toggle task) = Task.id task.
Proof. reflexivity. Qed.

Lemma spread_update_id (task : Task.t) (data : UpdateTaskRequest.t) :
  Task.id (spread_update task data) = Task.id task.
Proof. reflexivity. Qed.

(** C5. For every starting completion state, applying the local
    toggle-complete mutation twice to the same task gives back the
    original list, hence the original completion state of every task:
    the optimistic flip composed with itself is the identity. *)
Theorem optimistic_toggle_twice (taskId : Z) (l : list Task.t) :
  optimistic_toggle taskId (optimistic_toggle taskId l) = l
  ∧ map Task.is_completed (optimistic_toggle taskId (optimistic_toggle taskId l))
    = map Task.is_completed l.
Proof.
  assert (H : optimistic_toggle taskId (optimistic_toggle taskId l) = l).
  { unfold optimistic_toggle. rewrite map_map.
    induction l as [|t l IH]; simpl; [reflexivity|].
    rewrite IH. f_equal.
    destruct (Task.id t =? taskId) eqn:E.
    - rewrite spread_toggle_id, E. apply spread_toggle_involutive.
    - by rewrite E. }
  by rewrite H.
Qed.

Lemma existsb_count_id (i : Z) (l : list Task.t) :
  existsb (fun t => Task.id t =? i) l = negb (Nat.eqb (count_id i l) 0).
Proof.
  unfold count_id.
  induction l as [|t l IH]; simpl; [reflexivity|].
  destruct (Task.id t =? i); simpl; [reflexivity | exact IH].
Qed.

Lemma insert_created_present (r : Task.t) (l : list Task.t) :
  (1 ≤ count_id (Task.id r) l)%nat → insert_created r l = l.
Proof.
  intros H. unfold insert_created. rewrite existsb_count_id.
  destruct (count_id (Task.id r) l); [lia | reflexivity].
Qed.

Lemma count_id_insert_created (r : Task.t) (l : list Task.t) :
  count_id (Task.id r) (insert_created r l) = Nat.max 1 (count_id (Task.id r) l).
Proof.
  unfold insert_created. rewrite existsb_count_id.
  destruct (count_id (Task.id r) l) as [|n] eqn:E; simpl.
  - unfold count_id in *; simpl. rewrite Z.eqb_refl, E. reflexivity.
  - exact E.
Qed.

(** The insertion of createTask is idempotent on every list. *)
Lemma insert_created_idempotent (r : Task.t) (l : list Task.t) :
  insert_created r (insert_created r l) = insert_created r l.
Proof.
  apply insert_created_present. rewrite count_id_insert_created. lia.
Qed.

(** C3, as stated, fails: on a list that already holds two tasks with the
    id of the response, applying the response twice leaves two tasks with
    that id, not exactly one. *)
Lemma insert_created_twice_two_left :
  count_id 1 (insert_created (sample_task 1 "Buy milk" false)
               (insert_created (sample_task 1 "Buy milk" false)
                  [sample_task 1 "Buy milk" false; sample_task 1 "Buy bread" true]))
  ≠ 1%nat.
Proof. vm_compute. discriminate. Qed.

(** C3, amended. For every create response and every task list that
    holds at most one task with the id of the response, applying the
    insertion twice yields a list with exactly one task of that id; the
    second application changes nothing, and the insertion is a no-op
    whenever a task with that id is already present. *)
Theorem insert_created_twice_exactly_one (r : Task.t) (l : list Task.t) :
  (count_id (Task.id r) l ≤ 1)%nat →
  count_id (Task.id r) (insert_created r (insert_created r l)) = 1%nat
  ∧ insert_created r (insert_created r l) = insert_created r l
  ∧ (count_id (Task.id r) l = 1%nat → insert_created r l = l).
Proof.
  intros H. split; [|split].
  - rewrite insert_created_idempotent, count_id_insert_created. lia.
  - apply insert_created_idempotent.
  - intros H1. apply insert_created_present. lia.
Qed.

Lemma insert_created_twice_exactly_one_witness :
  (count_id 7 [sample_task 3 "Walk" false] ≤ 1)%nat
  ∧ count_id 7 (insert_created (sample_task 7 "Buy milk" false)
                 (insert_created (sample_task 7 "Buy milk" false)
                    [sample_task 3 "Walk" false])) = 1%nat.
Proof.
  split.
  - vm_compute. lia.
  - apply (insert_created_twice_exactly_one (sample_task 7 "Buy milk" false)
             [sample_task 3 "Walk" false]).
    vm_compute. lia.
Defined.

(** ** Frame properties *)

Lemma map_if_lookup (g : Task.t -> bool) (f : Task.t -> Task.t) (l : list Task.t)
    (i : nat) (t : Task.t) :
  l !! i = Some t →
  map (fun x => if g x then f x else x) l !! i = Some (if g t then f t else t).
Proof.
  intros H. change (map ?h l) with (h <$> l).
  by rewrite list_lookup_fmap, H.
Qed.

Lemma optimistic_delete_sublist (taskId : Z) (l : list Task.t) :
  optimistic_delete taskId l `sublist_of` l.
Proof.
  unfold optimistic_delete.
  induction l as [|t l IH]; simpl; [constructor|].
  destruct (negb (Task.id t =? taskId)); by constructor.
Qed.

Lemma optimistic_delete_elem (taskId : Z) (l : list Task.t) (t : Task.t) :
  t ∈ optimistic_delete taskId l ↔ t ∈ l ∧ Task.id t ≠ taskId.
Proof.
  unfold optimistic_delete.
  rewrite !list_elem_of_In, filter_In, negb_true_iff, Z.eqb_neq. tauto.
Qed.

Lemma optimistic_delete_largest (taskId : Z) (l l' : list Task.t) :
  l' `sublist_of` l →
  (∀ t, t ∈ l' → Task.id t ≠ taskId) →
  l' `sublist_of` optimistic_delete taskId l.
Proof.
  unfold optimistic_delete.
  induction 1 as [|t l1 l2 Hsub IH|t l1 l2 Hsub IH]; intros Hne; simpl.
  - constructor.
  - assert (Ht : Task.id t ≠ taskId) by (apply Hne; left).
    apply Z.eqb_neq in Ht. rewrite Ht. simpl.
    constructor. apply IH. intros x Hx. apply Hne. by right.
  - destruct (negb (Task.id t =? taskId)); [constructor|]; by apply IH.
Qed.

(** C10. The optimistic mutations preserve the frame.  For every task
    list and task id, the local update and toggle-complete mutations keep
    the length of the list and leave every task whose id differs
    unchanged at its position, changing the tasks of that id only (to the
    merged, respectively flipped, task); the local delete mutation yields
    the sub-list, in the original order, of exactly the tasks whose id
    differs: nothing else is removed. *)
Theorem optimistic_mutations_frame (taskId : Z) (data : UpdateTaskRequest.t)
    (l : list Task.t) :
  (length (optimistic_update taskId data l) = length l
   ∧ ∀ (i : nat) (t : Task.t), l !! i = Some t →
       (Task.id t ≠ taskId → optimistic_update taskId data l !! i = Some t)
       ∧ (Task.id t = taskId →
          optimistic_update taskId data l !! i = Some (spread_update t data)))
  ∧ (length (optimistic_toggle taskId l) = length l
     ∧ ∀ (i : nat) (t : Task.t), l !! i = Some t →
         (Task.id t ≠ taskId → optimistic_toggle taskId l !! i = Some t)
         ∧ (Task.id t = taskId →
            optimistic_toggle taskId l !! i = Some (spread_toggle t)))
  ∧ (optimistic_delete taskId l `sublist_of` l
     ∧ (∀ t : Task.t, t ∈ optimistic_delete taskId l ↔ t ∈ l ∧ Task.id t ≠ taskId)
     ∧ (∀ l' : list Task.t, l' `sublist_of` l →
          (∀ t, t ∈ l' → Task.id t ≠ taskId) →
          l' `sublist_of` optimistic_delete taskId l)).
Proof.
  split; [|split].
  - split; [apply length_map|].
    intros i t Hi. unfold optimistic_update.
    rewrite (map_if_lookup _ _ _ _ _ Hi).
    split; intros Hid.
    + apply Z.eqb_neq in Hid. by rewrite Hid.
    + apply Z.eqb_eq in Hid. by rewrite Hid.
  - split; [apply length_map|].
    intros i t Hi. unfold optimistic_toggle.
    rewrite (map_if_lookup _ _ _ _ _ Hi).
    split; intros Hid.
    + apply Z.eqb_neq in Hid. by rewrite Hid.
    + apply Z.eqb_eq in Hid. by rewrite Hid.
  - split; [apply optimistic_delete_sublist|].
    split; [apply optimistic_delete_elem|].
    intros l'. apply optimistic_delete_largest.
Qed.

Lemma optimistic_mutations_frame_witness :
  let l := [sample_task 1 "Walk" false; sample_task 2 "Read" true] in
  l !! 0%nat = Some (sample_task 1 "Walk" false)
  ∧ Task.id (sample_task 1 "Walk" false) ≠ 2
  ∧ optimistic_update 2 (rename_to "Write") l !! 0%nat = Some (sample_task 1 "Walk" false)
  ∧ optimistic_toggle 2 l !! 0%nat = Some (sample_task 1 "Walk" false)
  ∧ [sample_task 1 "Walk" false] `sublist_of` optimistic_delete 2 l.
Proof.
  intros l.
  pose proof (optimistic_mutations_frame 2 (rename_to "Write") l)
    as [[_ Hu] [[_ Ht] [_ [_ Hd]]]].
  assert (H0 : l !! 0%nat = Some (sample_task 1 "Walk" false)) by reflexivity.
  assert (Hne : Task.id (sample_task 1 "Walk" false) ≠ 2) by (simpl; lia).
  split; [exact H0|]. split; [exact Hne|].
  split; [exact (proj1 (Hu _ _ H0) Hne)|].
  split; [exact (proj1 (Ht _ _ H0) Hne)|].
  apply Hd.
  - subst l. apply sublist_skip. apply sublist_cons. apply sublist_nil.
  - intros t Ht'. apply list_elem_of_singleton in Ht'. subst t. exact Hne.
Defined.

(* ===================================================================== *)
(** * The optimistic update protocol *)
(* ===================================================================== *)

(** The three callbacks that close over [tasks] apply their mutation and
    only then suspend on the request. *)
Lemma mutations_applied_before_request (s : HookState) (taskId : Z)
    (data : UpdateTaskRequest.t) :
  let hook := useTasks s in
  (pending_request (start (ret_updateTask hook taskId data) s)
     = Some (Req (UpdateTask taskId data))
   ∧ shown (start (ret_updateTask hook taskId data) s)
     = optimistic_update taskId data (tasks s))
  ∧ (pending_request (start (ret_deleteTask hook taskId) s)
       = Some (Req (DeleteTask taskId))
     ∧ shown (start (ret_deleteTask hook taskId) s) = optimistic_delete taskId (tasks s))
  ∧ (pending_request (start (ret_toggleComplete hook taskId) s)
       = Some (Req (ToggleComplete taskId))
     ∧ shown (start (ret_toggleComplete hook taskId) s)
       = optimistic_toggle taskId (tasks s)).
Proof. repeat split. Qed.

(** A rollback writes back the list captured by the closure, whatever
    the state cell holds when the promise is rejected. *)
Lemma rollback_writes_closure (closure : list Task.t) (taskId : Z)
    (data : UpdateTaskRequest.t) (err : Exception) (s : HookState) :
  tasks (fst (run (updateTask closure taskId data) (failing err) s)) = closure
  ∧ tasks (fst (run (deleteTask closure taskId) (failing err) s)) = closure
  ∧ tasks (fst (run (toggleComplete closure taskId) (failing err) s)) = closure.
Proof. destruct err; repeat split. Qed.

(** When the callback is the one of the render that shows the current
    list, a failing [updateTask], [deleteTask] or [toggleComplete] ends
    with the list of before the call, whatever happened to the state
    while the request was in flight. *)
Theorem failed_mutation_restores_list (s : HookState) (taskId : Z)
    (data : UpdateTaskRequest.t) (err : Exception)
    (meanwhile : HookState -> HookState) :
  let hook := useTasks s in
  (∃ s', settle (start (ret_updateTask hook taskId data) s) (failing err) meanwhile
         = Done s' None ∧ tasks s' = tasks s)
  ∧ (∃ s', settle (start (ret_deleteTask hook taskId) s) (failing err) meanwhile
           = Done s' false ∧ tasks s' = tasks s)
  ∧ (∃ s', settle (start (ret_toggleComplete hook taskId) s) (failing err) meanwhile
           = Done s' None ∧ tasks s' = tasks s).
Proof.
  destruct err; cbn; repeat split; eexists; split; reflexivity.
Qed.

(** C1, at the failing input.  The list is [1; 2; 3].  A handler takes
    [deleteTask] from that render, awaits [deleteTask(1)], which
    succeeds, and then calls [deleteTask(2)], which fails with status
    500.  The second call still holds the first render's [tasks]: before
    it was issued the list was [2; 3], after the failed call it is
    [1; 2; 3].  The rollback writes the list of the render that created
    the callback, not the list of before the call, and the task deleted
    by the first call is back. *)
Theorem stale_callback_rollback_is_not_the_list_before :
  let t1 := sample_task 1 "Walk" false in
  let t2 := sample_task 2 "Read" true in
  let t3 := sample_task 3 "Swim" false in
  let s0 := with_tasks initial_state [t1; t2; t3] in
  let hook := useTasks s0 in
  let s1 := fst (run (ret_deleteTask hook 1) (confirming t1) s0) in
  tasks s1 = [t2; t3]
  ∧ shown (start (ret_deleteTask hook 2) s1) = [t3]
  ∧ ∃ s2, settle (start (ret_deleteTask hook 2) s1)
            (failing (ApiError 500 "Internal error")) (fun s => s) = Done s2 false
          ∧ tasks s2 = [t1; t2; t3]
          ∧ tasks s2 ≠ tasks s1.
Proof.
  cbn. split; [reflexivity|]. split; [reflexivity|].
  eexists. split; [reflexivity|]. split; [reflexivity|]. discriminate.
Qed.

(** C7. The list fetch is not optimistic: for every current local list
    and every successful fetch response, [fetchTasks] changes nothing of
    the list before its request, and ends with the local list equal to
    the fetched list exactly, whatever the list held before or while the
    request was in flight. *)
Theorem fetch_replaces_list (s : HookState) (response : TaskListResponse.t)
    (meanwhile : HookState -> HookState) :
  pending_request (start fetchTasks s) = Some (Req GetTasks)
  ∧ shown (start fetchTasks s) = tasks s
  ∧ ∃ s', settle (start fetchTasks s) (fetching response) meanwhile = Done s' tt
          ∧ tasks s' = TaskListResponse.tasks response
          ∧ isLoading s' = false.
Proof.
  cbn. repeat split. eexists. repeat split.
Qed.

(** C2, at the failing input [createTask({ title: 'Buy milk' })] on the
    empty list: the callback suspends on the request with the local
    state exactly as it was, so that no task is shown while the request
    is in flight; the list changes only once the response has arrived,
    and a rejected request leaves it as it is. *)
Theorem createTask_waits_for_response :
  let hook := useTasks initial_state in
  let p := start (ret_createTask hook buy_milk) initial_state in
  pending_request p = Some (Req (CreateTask buy_milk))
  ∧ state_of p = initial_state
  ∧ shown p = []
  ∧ shown (settle p (failing OtherError) (fun s => s)) = []
  ∧ shown (settle p (fun T call =>
                       match call in ApiCall T return Outcome T with
                       | CreateTask _ => Resolved (sample_task 1 "Buy milk" false)
                       | _ => Rejected OtherError
                       end) (fun s => s))
    = [sample_task 1 "Buy milk" false].
Proof. repeat split. Qed.

(** [createTask] never writes the list before its request, on any state
    and for any request body. *)
Lemma createTask_not_optimistic (s : HookState) (data : CreateTaskRequest.t) :
  pending_request (start (createTask data) s) = Some (Req (CreateTask data))
  ∧ state_of (start (createTask data) s) = s.
Proof. split; reflexivity. Qed.

(* ===================================================================== *)
(** * The API client *)
(* ===================================================================== *)

Section ApiClientFacts.
Variable env : option string.
Variable fetch : FetchRequest -> FetchResult.

Lemma truthy_Some (s : string) : truthy (Some s) = true ↔ s ≠ EmptyString.
Proof.
  unfold truthy. rewrite negb_true_iff. split.
  - intros H ->. by rewrite String.eqb_refl in H.
  - intros H. by apply String.eqb_neq.
Qed.

(** Without a user id no endpoint reaches [request]. *)
Lemma with_user_rejects (w : World) (k : string -> World * Outcome Json) :
  truthy (getUserId w) = false →
  with_user w k = (w, Rejected (ApiError 401 "Not authenticated")).
Proof.
  intros H. unfold with_user.
  destruct (getUserId w) as [userId|]; [|reflexivity]. by rewrite H.
Qed.

Lemma with_user_proceeds (w : World) (k : string -> World * Outcome Json)
    (userId : string) :
  getUserId w = Some userId → userId ≠ EmptyString → with_user w k = k userId.
Proof.
  intros H Hne. unfold with_user. rewrite H.
  apply truthy_Some in Hne. by rewrite Hne.
Qed.

(** [request] sends exactly one request, to [API_BASE + endpoint], with
    the headers computed from the stored token. *)
Lemma request_sends_one (endpoint : string) (options : RequestInit) (w : World) :
  sent (fst (request env fetch endpoint options w))
  = sent w ++ [ {| url := API_BASE env +:+ endpoint;
                   req_method := init_method options;
                   req_body := init_body options;
                   req_headers := request_headers (getAccessToken w) options |} ].
Proof.
  unfold request.
  destruct (fetch _) as [|response]; [reflexivity|].
  destruct (negb (ok response)).
  - destruct (status response =? 401); [|reflexivity].
    simpl. unfold clear_and_redirect. simpl. by destruct (window w).
  - by destruct (body response).
Qed.

Lemma request_headers_authorization (token : option string) :
  request_headers token no_options !! "Authorization"
  = match token with
    | Some t => if truthy token then Some ("Bearer " +:+ t) else None
    | None => None
    end.
Proof.
  unfold request_headers, no_options; simpl.
  rewrite (left_id_L ∅ (∪)).
  destruct token as [t|]; [destruct (truthy (Some t))|].
  - apply lookup_union_Some_l. apply lookup_singleton_eq.
  - rewrite (left_id_L ∅ (∪)). by apply lookup_singleton_ne.
  - rewrite (left_id_L ∅ (∪)). by apply lookup_singleton_ne.
Qed.

Lemma request_headers_no_init (token : option string) (m : option string)
    (b : option RequestBody) :
  request_headers token {| init_method := m; init_body := b; init_headers := ∅ |}
  = request_headers token no_options.
Proof. reflexivity. Qed.

(** The request that each endpoint sends once the guard has passed. *)
Lemma api_sends_scoped {T : Type} (call : ApiCall T) (w : World) (userId : string) :
  getUserId w = Some userId → userId ≠ EmptyString →
  ∃ (req : FetchRequest) (rest : string),
    sent (fst (api env fetch call w)) = sent w ++ [req]
    ∧ url req = API_BASE env +:+ "/api/" +:+ userId +:+ "/tasks" +:+ rest
    ∧ req_headers req = request_headers (getAccessToken w) no_options.
Proof.
  intros Hu Hne.
  destruct call; simpl;
    unfold getTasks, getTask, api_createTask, api_updateTask, api_deleteTask,
      api_toggleComplete;
    rewrite (with_user_proceeds _ _ _ Hu Hne).
  - pose proof (request_sends_one ("/api/" +:+ userId +:+ "/tasks") no_options w) as H.
    destruct (request env fetch _ no_options w) as [w' [j|e]]; simpl in *;
      eexists _, EmptyString; (split; [exact H|]); split; reflexivity.
  - rewrite request_sends_one. eexists _, ("/" +:+ pretty taskId).
    split; [reflexivity|]. split; reflexivity.
  - rewrite request_sends_one. eexists _, EmptyString.
    split; [reflexivity|]. split; reflexivity.
  - rewrite request_sends_one. eexists _, ("/" +:+ pretty taskId).
    split; [reflexivity|]. split; reflexivity.
  - rewrite request_sends_one. eexists _, ("/" +:+ pretty taskId).
    split; [reflexivity|]. split; reflexivity.
  - rewrite request_sends_one. eexists _, ("/" +:+ pretty taskId +:+ "/complete").
    split; [reflexivity|]. split; reflexivity.
Qed.

Lemma api_rejects_without_user {T : Type} (call : ApiCall T) (w : World) :
  truthy (getUserId w) = false →
  api env fetch call w = (w, Rejected (ApiError 401 "Not authenticated")).
Proof.
  intros H. destruct call; simpl; by apply with_user_rejects.
Qed.

End ApiClientFacts.

(** C8, as stated, fails: with a user stored but no access token, an
    endpoint passes its guard and sends its request without any
    [Authorization] header. *)
Lemma stored_user_without_token_sends_no_authorization :
  truthy (getUserId user_without_token) = true
  ∧ ∃ req : FetchRequest,
      sent (fst (api None (answering unauthorized) GetTasks user_without_token)) = [req]
      ∧ url req = "http://localhost:8000/api/alice/tasks"
      ∧ req_headers req !! "Authorization" = None.
Proof.
  split; [reflexivity|].
  eexists. split; [reflexivity|]. split; [reflexivity|].
  vm_compute. reflexivity.
Qed.

(** C8, amended. Every task API operation ([getTasks], [getTask],
    [createTask], [updateTask], [deleteTask], [toggleComplete]) fails
    with the 401 error 'Not authenticated', leaving the world untouched
    and sending nothing, when no user id is stored; otherwise it sends
    exactly one request, to a path under [/api/<stored user id>/tasks],
    which carries [Authorization: Bearer <token>] when a non-empty access
    token is stored and no [Authorization] header when none is. *)
Theorem task_endpoints_guard_and_scope (env : option string)
    (fetch : FetchRequest -> FetchResult) {T : Type} (call : ApiCall T) (w : World) :
  (truthy (getUserId w) = false →
     api env fetch call w = (w, Rejected (ApiError 401 "Not authenticated")))
  ∧ (∀ userId : string, getUserId w = Some userId → userId ≠ EmptyString →
       ∃ (req : FetchRequest) (rest : string),
         sent (fst (api env fetch call w)) = sent w ++ [req]
         ∧ url req = API_BASE env +:+ "/api/" +:+ userId +:+ "/tasks" +:+ rest
         ∧ (∀ token : string, getAccessToken w = Some token → token ≠ EmptyString →
              req_headers req !! "Authorization" = Some ("Bearer " +:+ token))
         ∧ (truthy (getAccessToken w) = false →
              req_headers req !! "Authorization" = None)).
Proof.
  split; [apply api_rejects_without_user|].
  intros userId Hu Hne.
  destruct (api_sends_scoped env fetch call w userId Hu Hne) as (req & rest & Hs & Hurl & Hh).
  exists req, rest. split; [exact Hs|]. split; [exact Hurl|].
  rewrite Hh, request_headers_authorization. split.
  - intros token Ht Hnt. rewrite Ht. apply truthy_Some in Hnt. by rewrite Hnt.
  - intros Hf. destruct (getAccessToken w) as [t|]; [|reflexivity]. by rewrite Hf.
Qed.

Lemma task_endpoints_guard_and_scope_witness :
  (truthy (getUserId {| window := None; sent := [] |}) = false
   ∧ api None (answering unauthorized) (DeleteTask 4) {| window := None; sent := [] |}
     = ({| window := None; sent := [] |}, Rejected (ApiError 401 "Not authenticated")))
  ∧ (getUserId logged_in = Some "alice" ∧ "alice" ≠ EmptyString
     ∧ getAccessToken logged_in = Some "jwt-alice" ∧ "jwt-alice" ≠ EmptyString
     ∧ ∃ (req : FetchRequest) (rest : string),
         sent (fst (api None (answering unauthorized) (DeleteTask 4) logged_in)) = [] ++ [req]
         ∧ url req = "http://localhost:8000" +:+ "/api/" +:+ "alice" +:+ "/tasks" +:+ rest
         ∧ req_headers req !! "Authorization" = Some ("Bearer " +:+ "jwt-alice")).
Proof.
  split.
  - split; [reflexivity|].
    apply (task_endpoints_guard_and_scope None (answering unauthorized) (DeleteTask 4)).
    reflexivity.
  - split; [reflexivity|]. split; [discriminate|].
    split; [reflexivity|]. split; [discriminate|].
    destruct (task_endpoints_guard_and_scope None (answering unauthorized)
                (DeleteTask 4) logged_in) as [_ H].
    destruct (H "alice" eq_refl ltac:(discriminate)) as (req & rest & Hs & Hurl & Ht & _).
    exists req, rest. split; [exact Hs|]. split; [exact Hurl|].
    apply Ht; [reflexivity | discriminate].
Defined.

(** On a 401 response every endpoint clears the stored token and user,
    points the browser at the login page, and rejects with
    [ApiError(401, detail)]. *)
Lemma api_401_clears_and_redirects (env : option string) {T : Type} (call : ApiCall T)
    (w : World) (win : Window) (userId : string) (response : Response) :
  window w = Some win → getUserId w = Some userId → userId ≠ EmptyString →
  status response = 401 →
  ∃ detail : string,
    snd (api env (answering response) call w) = Rejected (ApiError 401 detail)
    ∧ window (fst (api env (answering response) call w))
      = Some {| localStorage_access_token := None; localStorage_user := None;
                location_href := "/login" |}.
Proof.
  intros Hw Hu Hne Hst.
  assert (Hreq : ∀ endpoint options, ∃ detail : string,
            request env (answering response) endpoint options w
            = ({| window := Some {| localStorage_access_token := None;
                                    localStorage_user := None;
                                    location_href := "/login" |};
                  sent := sent w ++ [ {| url := API_BASE env +:+ endpoint;
                                         req_method := init_method options;
                                         req_body := init_body options;
                                         req_headers :=
                                           request_headers (getAccessToken w) options |} ] |},
               Rejected (ApiError 401 detail))).
  { intros endpoint options. unfold request, answering, ok.
    rewrite Hst. simpl. unfold clear_and_redirect. simpl. rewrite Hw.
    eexists. reflexivity. }
  destruct call; simpl;
    unfold getTasks, getTask, api_createTask, api_updateTask, api_deleteTask,
      api_toggleComplete;
    rewrite (with_user_proceeds _ _ _ Hu Hne);
    match goal with
    | |- context [request env (answering response) ?e ?o w] =>
        destruct (Hreq e o) as [detail ->]
    end;
    exists detail; split; reflexivity.
Qed.

(** On a rejection with status 401, [fetchTasks] shows nothing: no error
    text, no toast. *)
Lemma fetchTasks_silent_on_401 (s : HookState) (detail : string) :
  run fetchTasks (failing (ApiError 401 detail)) s
  = ({| tasks := tasks s; isLoading := false; error := None; toasts := toasts s |}, tt).
Proof. reflexivity. Qed.

(** The mutating callbacks show the detail of every [ApiError] as an
    error toast, whatever its status. *)
Lemma mutations_toast_every_api_error (s : HookState) (status : Z) (detail : string)
    (taskId : Z) (data : UpdateTaskRequest.t) (create : CreateTaskRequest.t) :
  let err := ApiError status detail in
  toasts (fst (run (createTask create) (failing err) s)) = toasts s ++ [ToastErrorMsg detail]
  ∧ toasts (fst (run (updateTask (tasks s) taskId data) (failing err) s))
    = toasts s ++ [ToastErrorMsg detail]
  ∧ toasts (fst (run (deleteTask (tasks s) taskId) (failing err) s))
    = toasts s ++ [ToastErrorMsg detail]
  ∧ toasts (fst (run (toggleComplete (tasks s) taskId) (failing err) s))
    = toasts s ++ [ToastErrorMsg detail].
Proof. repeat split. Qed.

(** C6, at the failing input: Alice is logged in, her list holds task 1,
    she renames it, and the backend answers 401 with detail 'Token has
    expired'.  The client clears the stored token and user and points
    the browser at the login page, and rolls the list back; but
    [updateTask] also shows the detail as an error toast.  The same
    response to [fetchTasks] clears, redirects and shows nothing. *)
Theorem updateTask_401_redirects_and_toasts :
  let s := with_tasks initial_state [sample_task 1 "Walk" false] in
  let cleared := {| localStorage_access_token := None; localStorage_user := None;
                    location_href := "/login" |} in
  match run_client None (answering unauthorized)
          (ret_updateTask (useTasks s) 1 (rename_to "Walk the dog")) logged_in s with
  | Some (w', s', result) =>
      window w' = Some cleared
      ∧ toasts s' = [ToastErrorMsg "Token has expired"]
      ∧ tasks s' = tasks s
      ∧ result = None
  | None => False
  end
  ∧ match run_client None (answering unauthorized) (ret_refetch (useTasks s)) logged_in s with
    | Some (w', s', _) => window w' = Some cleared ∧ toasts s' = [] ∧ error s' = None
    | None => False
    end.
Proof. vm_compute. repeat split. Qed.

(* ===================================================================== *)
(** * User isolation at the backend *)
(* ===================================================================== *)

Section Isolation.
Import Backend.
Variable verify : string -> option string.
Variable timestamp : string.

Lemma map_if_removed (g : Task.t -> bool) (f : Task.t -> Task.t) (l : list Task.t)
    (x : Task.t) :
  x ∈ l → x ∉ map (fun r => if g r then f r else r) l → g x = true.
Proof.
  intros Hin Hnot. destruct (g x) eqn:E; [reflexivity|].
  exfalso. apply Hnot.
  change (map ?h l) with (h <$> l).
  apply list_elem_of_fmap. exists x. by rewrite E.
Qed.

Lemma map_if_added (g : Task.t -> bool) (f : Task.t -> Task.t) (l : list Task.t)
    (x : Task.t) :
  x ∈ map (fun r => if g r then f r else r) l → x ∉ l →
  ∃ r, r ∈ l ∧ g r = true ∧ x = f r.
Proof.
  change (map ?h l) with (h <$> l).
  intros Hin Hnot. apply list_elem_of_fmap in Hin as (r & Hx & Hr).
  destruct (g r) eqn:E; [by exists r|]. subst x. contradiction.
Qed.

Lemma selects_owned (owner : string) (taskId : Z) (row : Task.t) :
  selects owner taskId row = true → Task.user_id row = owner.
Proof.
  unfold selects, owned_by. intros H.
  apply andb_true_iff in H as [H _]. by apply String.eqb_eq.
Qed.

Lemma find_selects (owner : string) (taskId : Z) (db : list Task.t) (row : Task.t) :
  find (selects owner taskId) db = Some row → Task.user_id row = owner.
Proof.
  intros H. apply find_some in H as [_ H]. by apply selects_owned in H.
Qed.

(** Every row that a scoped operation discloses, removes, changes or
    writes belongs to the scoping key. *)
Lemma data_access_scoped (owner : string) (op : Operation) (db : list Task.t)
    (row : Task.t) :
  (let '(db', resp) := data_access timestamp owner op db in
   row ∈ rows_read resp ∨ (row ∈ db ∧ row ∉ db') ∨ (row ∈ db' ∧ row ∉ db)) →
  Task.user_id row = owner.
Proof.
  destruct op as [|data|taskId|taskId data|taskId|taskId]; simpl.
  - intros [H|[[H1 H2]|[H1 H2]]]; try contradiction.
    apply list_elem_of_In, filter_In in H as [_ H].
    by apply String.eqb_eq.
  - intros [H|[[H1 H2]|[H1 H2]]].
    + apply list_elem_of_singleton in H. by subst row.
    + exfalso. apply H2, elem_of_app. by left.
    + apply elem_of_app in H1 as [H1|H1]; [contradiction|].
      apply list_elem_of_singleton in H1. by subst row.
  - destruct (find _ db) as [r|] eqn:E; simpl.
    + intros [H|[[H1 H2]|[H1 H2]]]; try contradiction.
      apply list_elem_of_singleton in H. subst row. by apply find_selects in E.
    + intros [H|[[H1 H2]|[H1 H2]]]; try contradiction. by apply elem_of_nil in H.
  - destruct (find _ db) as [r|] eqn:E; simpl.
    + intros [H|[[H1 H2]|[H1 H2]]].
      * apply list_elem_of_singleton in H. subst row. simpl. by apply find_selects in E.
      * apply (map_if_removed _ _ _ _ H1) in H2. by apply selects_owned in H2.
      * apply (map_if_added _ _ _ _ H1) in H2 as (r' & _ & Hsel & ->).
        simpl. by apply selects_owned in Hsel.
    + intros [H|[[H1 H2]|[H1 H2]]]; try contradiction. by apply elem_of_nil in H.
  - destruct (find _ db) as [r|] eqn:E; simpl.
    + intros [H|[[H1 H2]|[H1 H2]]].
      * by apply elem_of_nil in H.
      * destruct (selects owner taskId row) eqn:Hsel; [by apply selects_owned in Hsel|].
        exfalso. apply H2. apply list_elem_of_In, filter_In.
        split; [by apply list_elem_of_In|]. by rewrite Hsel.
      * exfalso. apply H2. apply list_elem_of_In.
        apply list_elem_of_In, filter_In in H1 as [H1 _]. exact H1.
    + intros [H|[[H1 H2]|[H1 H2]]]; try contradiction. by apply elem_of_nil in H.
  - destruct (find _ db) as [r|] eqn:E; simpl.
    + intros [H|[[H1 H2]|[H1 H2]]].
      * apply list_elem_of_singleton in H. subst row. simpl. by apply find_selects in E.
      * apply (map_if_removed _ _ _ _ H1) in H2. by apply selects_owned in H2.
      * apply (map_if_added _ _ _ _ H1) in H2 as (r' & _ & Hsel & ->).
        simpl. by apply selects_owned in Hsel.
    + intros [H|[[H1 H2]|[H1 H2]]]; try contradiction. by apply elem_of_nil in H.
Qed.

Lemma gate_passes (req : HttpRequest) (identity : string) :
  gate verify req = inr identity →
  authenticated_subject verify req = Some identity ∧ identity = target_user req.
Proof.
  unfold gate. destruct (authenticated_subject verify req) as [subject|]; [|discriminate].
  destruct (String.eqb subject (target_user req)) eqn:E; [|discriminate].
  intros [= <-]. split; [reflexivity|]. by apply String.eqb_eq.
Qed.

Lemma gate_cross_user (req : HttpRequest) (subject : string) :
  authenticated_subject verify req = Some subject →
  subject ≠ target_user req →
  gate verify req = inl AuthorizationError.
Proof.
  intros H Hne. unfold gate. rewrite H.
  apply String.eqb_neq in Hne. by rewrite Hne.
Qed.

End Isolation.

(** C4. For every task row and every request that reads or mutates it
    (the response discloses the row, or the request removes, changes or
    writes it), the row's [user_id] equals the authenticated subject of
    the request, which is also the user id of the path; and every
    cross-user access, where the subject of the verified token differs
    from the target user id, fails with the authorization error and
    leaves the table as it was. *)
Theorem task_rows_belong_to_subject (verify : string -> option string)
    (timestamp : string) (req : Backend.HttpRequest) (db : list Task.t) :
  (∀ row : Task.t, Backend.touches verify timestamp req db row →
     Backend.authenticated_subject verify req = Some (Task.user_id row)
     ∧ Task.user_id row = Backend.target_user req)
  ∧ (∀ subject : string,
       Backend.authenticated_subject verify req = Some subject →
       subject ≠ Backend.target_user req →
       Backend.handle verify timestamp req db
       = (db, Backend.Failed Backend.AuthorizationError)).
Proof.
  split.
  - intros row. unfold Backend.touches, Backend.handle.
    destruct (Backend.gate verify req) as [e|identity] eqn:G.
    + simpl. intros [H|[[H1 H2]|[H1 H2]]]; try contradiction.
      by apply elem_of_nil in H.
    + apply gate_passes in G as [Hs Ht].
      intros H. apply data_access_scoped in H. subst identity.
      rewrite H. split; [exact Hs | reflexivity].
  - intros subject Hs Hne. unfold Backend.handle.
    by rewrite (gate_cross_user verify req subject Hs Hne).
Qed.

Lemma task_rows_belong_to_subject_witness :
  let own := {| Backend.bearer := Some "jwt-alice"; Backend.target_user := "alice";
                Backend.operation := Backend.ListTasks |} in
  let cross := {| Backend.bearer := Some "jwt-bob"; Backend.target_user := "alice";
                  Backend.operation := Backend.DeleteTaskOp 1 |} in
  (Backend.touches sample_verify "2026-01-03T00:00:00Z" own sample_db
     (sample_task 1 "Walk" false)
   ∧ Backend.authenticated_subject sample_verify own = Some "alice")
  ∧ (Backend.authenticated_subject sample_verify cross = Some "bob"
     ∧ "bob" ≠ Backend.target_user cross
     ∧ Backend.handle sample_verify "2026-01-03T00:00:00Z" cross sample_db
       = (sample_db, Backend.Failed Backend.AuthorizationError)).
Proof.
  intros own cross.
  assert (Htouch : Backend.touches sample_verify "2026-01-03T00:00:00Z" own sample_db
                     (sample_task 1 "Walk" false)).
  { unfold Backend.touches. simpl. left. constructor. }
  split.
  - split; [exact Htouch|].
    exact (proj1 (proj1 (task_rows_belong_to_subject sample_verify
                           "2026-01-03T00:00:00Z" own sample_db) _ Htouch)).
  - split; [reflexivity|]. split; [discriminate|].
    apply (proj2 (task_rows_belong_to_subject sample_verify
                    "2026-01-03T00:00:00Z" cross sample_db) "bob");
      [reflexivity | discriminate].
Defined.

(* ===================================================================== *)
(** * More on the updaters of the hook *)
(* ===================================================================== *)

Lemma ids_map_if (g : Task.t -> bool) (f : Task.t -> Task.t) (l : list Task.t) :
  (∀ t, g t = true → Task.id (f t) = Task.id t) →
  ids (map (fun t => if g t then f t else t) l) = ids l.
Proof.
  intros Hf. unfold ids. rewrite map_map. apply map_ext_in.
  intros t _. destruct (g t) eqn:E; [by apply Hf | reflexivity].
Qed.

Lemma ids_optimistic_delete (taskId : Z) (l : list Task.t) :
  ids (optimistic_delete taskId l) `sublist_of` ids l.
Proof.
  unfold ids, optimistic_delete.
  induction l as [|t l IH]; simpl; [constructor|].
  destruct (negb (Task.id t =? taskId)); simpl; by constructor.
Qed.

Lemma count_id_zero_not_in (i : Z) (l : list Task.t) :
  count_id i l = 0%nat ↔ i ∉ ids l.
Proof.
  unfold count_id, ids. induction l as [|t l IH]; simpl.
  - split; [intros _; apply not_elem_of_nil | reflexivity].
  - rewrite not_elem_of_cons. destruct (Task.id t =? i) eqn:E.
    + apply Z.eqb_eq in E. split; [discriminate | intros [H _]; congruence].
    + apply Z.eqb_neq in E. rewrite IH. split; [intros H; split; congruence | tauto].
Qed.

(** X1. The updaters keep the ids of the list distinct: inserting a
    created task, the optimistic update, toggle and delete do so for
    every argument, and the replacement by the server's task does so when
    the server answers with the id that was asked for. *)
Theorem updaters_keep_ids_distinct (l : list Task.t) (taskId : Z)
    (data : UpdateTaskRequest.t) (newTask confirmed : Task.t) :
  NoDup (ids l) →
  NoDup (ids (insert_created newTask l))
  ∧ NoDup (ids (optimistic_update taskId data l))
  ∧ NoDup (ids (optimistic_toggle taskId l))
  ∧ NoDup (ids (optimistic_delete taskId l))
  ∧ (Task.id confirmed = taskId → NoDup (ids (replace_confirmed taskId confirmed l))).
Proof.
  intros Hl. repeat split.
  - unfold insert_created. rewrite existsb_count_id.
    destruct (count_id (Task.id newTask) l) eqn:E; simpl; [|exact Hl].
    apply NoDup_cons. split; [by apply count_id_zero_not_in | exact Hl].
  - unfold optimistic_update. by rewrite ids_map_if.
  - unfold optimistic_toggle. by rewrite ids_map_if.
  - eapply sublist_NoDup; [exact Hl | apply ids_optimistic_delete].
  - intros Hid. unfold replace_confirmed. rewrite ids_map_if; [exact Hl|].
    intros t Ht. apply Z.eqb_eq in Ht. congruence.
Qed.

Lemma updaters_keep_ids_distinct_witness :
  let l := [sample_task 1 "Walk" false; sample_task 2 "Read" true] in
  NoDup (ids l)
  ∧ NoDup (ids (insert_created (sample_task 3 "Buy milk" false) l))
  ∧ NoDup (ids (replace_confirmed 2 (sample_task 2 "Read more" true) l)).
Proof.
  intros l.
  assert (Hl : NoDup (ids l)).
  { apply NoDup_cons. split.
    - intros H. apply list_elem_of_singleton in H. discriminate.
    - apply NoDup_singleton. }
  destruct (updaters_keep_ids_distinct l 2 (rename_to "Read more")
              (sample_task 3 "Buy milk" false) (sample_task 2 "Read more" true) Hl)
    as (Hi & _ & _ & _ & Hr).
  split; [exact Hl|]. split; [exact Hi|]. apply Hr. reflexivity.
Defined.

(** When the server answers with another id, the replacement can
    duplicate an id. *)
Lemma replace_confirmed_foreign_id_duplicates :
  let l := [sample_task 1 "Walk" false; sample_task 2 "Read" true] in
  ids (replace_confirmed 1 (sample_task 2 "Read" true) l) = [2; 2].
Proof. reflexivity. Qed.

Lemma map_if_none (g : Task.t -> bool) (f : Task.t -> Task.t) (l : list Task.t) :
  (∀ t, t ∈ l → g t = false) → map (fun t => if g t then f t else t) l = l.
Proof.
  intros H. induction l as [|t l IH]; simpl; [reflexivity|].
  rewrite (H t) by (by left). f_equal. apply IH. intros x Hx. apply H. by right.
Qed.

Lemma count_id_zero_eqb (taskId : Z) (l : list Task.t) :
  count_id taskId l = 0%nat → ∀ t, t ∈ l → (Task.id t =? taskId) = false.
Proof.
  intros H t Ht. apply Z.eqb_neq. intros Hid.
  apply count_id_zero_not_in in H. apply H. rewrite <- Hid.
  unfold ids. change (map Task.id l) with (Task.id <$> l).
  by apply list_elem_of_fmap_2.
Qed.

(** X2. A task id that is not in the list makes every updater of that
    id a no-op: the optimistic update, toggle and delete and the
    replacement by the server's task all return the list unchanged. *)
Theorem unknown_id_changes_nothing (l : list Task.t) (taskId : Z)
    (data : UpdateTaskRequest.t) (confirmed : Task.t) :
  count_id taskId l = 0%nat →
  optimistic_update taskId data l = l
  ∧ optimistic_toggle taskId l = l
  ∧ optimistic_delete taskId l = l
  ∧ replace_confirmed taskId confirmed l = l.
Proof.
  intros H. pose proof (count_id_zero_eqb taskId l H) as Hne.
  repeat split.
  - by apply map_if_none.
  - by apply map_if_none.
  - unfold optimistic_delete. induction l as [|t l IH]; simpl; [reflexivity|].
    rewrite (Hne t) by (by left). simpl. f_equal. apply IH.
    + unfold count_id in *. simpl in H. rewrite (Hne t) in H by (by left). exact H.
    + intros x Hx. apply Hne. by right.
  - by apply map_if_none.
Qed.

Lemma unknown_id_changes_nothing_witness :
  let l := [sample_task 1 "Walk" false; sample_task 2 "Read" true] in
  count_id 9 l = 0%nat
  ∧ optimistic_delete 9 l = l
  ∧ replace_confirmed 9 (sample_task 9 "Swim" false) l = l.
Proof.
  intros l.
  assert (H : count_id 9 l = 0%nat) by reflexivity.
  destruct (unknown_id_changes_nothing l 9 (rename_to "Swim")
              (sample_task 9 "Swim" false) H) as (_ & _ & Hd & Hr).
  split; [exact H|]. split; [exact Hd | exact Hr].
Defined.

Lemma count_tasks_map_if (p : Task.t -> bool) (g : Task.t -> bool)
    (f : Task.t -> Task.t) (l : list Task.t) :
  count_tasks p (map (fun t => if g t then f t else t) l)
  = count_tasks (fun t => if g t then p (f t) else p t) l.
Proof.
  induction l as [|t l IH]; simpl; [reflexivity|].
  rewrite IH. by destruct (g t).
Qed.

Lemma count_tasks_ext (p q : Task.t -> bool) (l : list Task.t) :
  (∀ t, p t = q t) → count_tasks p l = count_tasks q l.
Proof.
  intros H. induction l as [|t l IH]; simpl; [reflexivity|]. by rewrite H, IH.
Qed.

Lemma count_tasks_filter (p q : Task.t -> bool) (l : list Task.t) :
  count_tasks p (List.filter q l) = count_tasks (fun t => q t && p t) l.
Proof.
  induction l as [|t l IH]; simpl; [reflexivity|].
  destruct (q t); simpl; by rewrite IH.
Qed.

(** X3. How the statistics follow the optimistic mutations.  An update
    leaves all three counters unchanged.  A toggle keeps [total] and
    moves the tasks of that id between [completed] and [pending].  A
    delete lowers [total] by the number of tasks that had the id. *)
Theorem stats_follow_mutations (l : list Task.t) (taskId : Z)
    (data : UpdateTaskRequest.t) :
  computeStats (optimistic_update taskId data l) = computeStats l
  ∧ TaskStats.total (computeStats (optimistic_toggle taskId l))
    = TaskStats.total (computeStats l)
  ∧ (TaskStats.completed (computeStats (optimistic_toggle taskId l))
     + count_tasks (fun t => Z.eqb (Task.id t) taskId && Task.is_completed t) l
     = TaskStats.completed (computeStats l)
       + count_tasks (fun t => Z.eqb (Task.id t) taskId && negb (Task.is_completed t)) l)%nat
  ∧ (TaskStats.total (computeStats (optimistic_delete taskId l)) + count_id taskId l
     = TaskStats.total (computeStats l))%nat.
Proof.
  repeat split.
  - unfold computeStats. rewrite !length_filter_count.
    unfold optimistic_update. rewrite length_map, !count_tasks_map_if.
    f_equal; apply count_tasks_ext; intros t; by destruct (Task.id t =? taskId).
  - unfold computeStats; simpl. unfold optimistic_toggle. apply length_map.
  - unfold computeStats; simpl. rewrite !length_filter_count.
    unfold optimistic_toggle. rewrite count_tasks_map_if.
    induction l as [|t l IH]; simpl in *; [reflexivity|].
    destruct (Task.id t =? taskId), (Task.is_completed t); simpl; lia.
  - unfold computeStats; simpl. unfold optimistic_delete, count_id.
    rewrite length_filter_count.
    induction l as [|t l IH]; simpl; [reflexivity|].
    destruct (Task.id t =? taskId); simpl; lia.
Qed.

(* ===================================================================== *)
(** * More on the callbacks of the hook *)
(* ===================================================================== *)

Lemma replace_confirmed_after_map_if (taskId : Z) (confirmed : Task.t)
    (f : Task.t -> Task.t) (l : list Task.t) :
  (∀ t, Task.id (f t) = Task.id t) →
  replace_confirmed taskId confirmed
    (map (fun t => if Task.id t =? taskId then f t else t) l)
  = replace_confirmed taskId confirmed l.
Proof.
  intros Hf. unfold replace_confirmed. rewrite map_map. apply map_ext.
  intros t. destruct (Task.id t =? taskId) eqn:E; [|by rewrite E].
  by rewrite Hf, E.
Qed.

(** X4. When an update or a toggle succeeds and nothing else touched the
    list meanwhile, the callback returns the server's task and the list
    is the list of before the call with every task of that id replaced
    by the server's task: the optimistic value leaves no trace.
    [updateTask] then shows a success toast, [toggleComplete] shows
    none. *)
Theorem server_task_overwrites_optimistic (s : HookState) (taskId : Z)
    (data : UpdateTaskRequest.t) (confirmed : Task.t) :
  let hook := useTasks s in
  (∃ s', settle (start (ret_updateTask hook taskId data) s) (confirming confirmed)
           (fun st => st) = Done s' (Some confirmed)
         ∧ tasks s' = replace_confirmed taskId confirmed (tasks s)
         ∧ toasts s' = toasts s ++ [ToastSuccess "Task updated successfully"])
  ∧ (∃ s', settle (start (ret_toggleComplete hook taskId) s) (confirming confirmed)
             (fun st => st) = Done s' (Some confirmed)
           ∧ tasks s' = replace_confirmed taskId confirmed (tasks s)
           ∧ toasts s' = toasts s).
Proof.
  split; eexists; (split; [reflexivity|]); (split; [|reflexivity]); cbn.
  - apply (replace_confirmed_after_map_if taskId confirmed
             (fun t => spread_update t data)). reflexivity.
  - apply (replace_confirmed_after_map_if taskId confirmed spread_toggle). reflexivity.
Qed.

(** X5. [fetchTasks] always ends with [isLoading] false.  When the
    request fails the list is left as it was; the error text and the
    toast are the detail of the [ApiError], except for status 401 where
    nothing is shown, and 'Failed to load tasks' for any other error.
    When it succeeds, an earlier error text is cleared. *)
Theorem fetchTasks_outcomes (net : Network) (s : HookState) :
  let s' := fst (run fetchTasks net s) in
  isLoading s' = false
  ∧ (∀ err, net _ GetTasks = Rejected err →
       let shown_ :=
         match err with
         | ApiError status detail => if status =? 401 then None else Some detail
         | OtherError => Some "Failed to load tasks"
         end in
       tasks s' = tasks s
       ∧ error s' = shown_
       ∧ toasts s' = toasts s ++ match shown_ with
                                  | Some m => [ToastErrorMsg m]
                                  | None => []
                                  end)
  ∧ (∀ response, net _ GetTasks = Resolved response →
       error s' = None ∧ toasts s' = toasts s).
Proof.
  cbn. destruct (net _ GetTasks) as [response|err] eqn:E.
  - cbn. split; [reflexivity|]. split; [discriminate|]. by intros ? _.
  - destruct err as [status detail|].
    + destruct (status =? 401) eqn:E401; cbn; rewrite ?E401; cbn.
      * split; [reflexivity|]. split; [|discriminate].
        intros err [= <-]. rewrite E401. cbn. by rewrite app_nil_r.
      * split; [reflexivity|]. split; [|discriminate].
        intros err [= <-]. by rewrite E401.
    + cbn. split; [reflexivity|]. split; [|discriminate].
      by intros err [= <-].
Qed.

Lemma fetchTasks_outcomes_witness :
  let s := with_tasks initial_state [sample_task 1 "Walk" false] in
  failing (ApiError 500 "Internal error") _ GetTasks = Rejected (ApiError 500 "Internal error")
  ∧ tasks (fst (run fetchTasks (failing (ApiError 500 "Internal error")) s)) = tasks s
  ∧ error (fst (run fetchTasks (failing (ApiError 500 "Internal error")) s))
    = Some "Internal error".
Proof.
  intros s. split; [reflexivity|].
  destruct (fetchTasks_outcomes (failing (ApiError 500 "Internal error")) s)
    as (_ & H & _).
  destruct (H _ eq_refl) as (Ht & He & _).
  split; [exact Ht | exact He].
Defined.

(** X6. [createTask] works on the list as it is when the response
    arrives, not on a captured one.  On success it returns the server's
    task, shows a success toast, and puts the task at the head of the
    list of that moment, the other tasks following in their order,
    unless a task with its id is already there, in which case the list
    is unchanged.  On failure it returns [null] and does not write the
    list at all. *)
Theorem createTask_on_arrival (s : HookState) (data : CreateTaskRequest.t)
    (newTask : Task.t) (err : Exception) (meanwhile : HookState -> HookState) :
  let now := meanwhile s in
  (∃ s', settle (start (createTask data) s) (confirming newTask) meanwhile
         = Done s' (Some newTask)
         ∧ toasts s' = toasts now ++ [ToastSuccess "Task created successfully"]
         ∧ (count_id (Task.id newTask) (tasks now) = 0%nat →
            tasks s' = newTask :: tasks now)
         ∧ ((1 ≤ count_id (Task.id newTask) (tasks now))%nat → tasks s' = tasks now))
  ∧ (∃ s', settle (start (createTask data) s) (failing err) meanwhile = Done s' None
           ∧ tasks s' = tasks now).
Proof.
  split.
  - eexists. split; [reflexivity|]. split; [reflexivity|]. cbn. split.
    + intros H. unfold insert_created. by rewrite existsb_count_id, H.
    + apply insert_created_present.
  - destruct err; eexists; split; reflexivity.
Qed.

Lemma createTask_on_arrival_witness :
  let s := with_tasks initial_state [sample_task 1 "Walk" false] in
  count_id 2 (tasks s) = 0%nat
  ∧ ∃ s', settle (start (createTask buy_milk) s)
            (confirming (sample_task 2 "Buy milk" false)) (fun st => st)
          = Done s' (Some (sample_task 2 "Buy milk" false))
          ∧ tasks s' = [sample_task 2 "Buy milk" false; sample_task 1 "Walk" false].
Proof.
  intros s. split; [reflexivity|].
  destruct (createTask_on_arrival s buy_milk (sample_task 2 "Buy milk" false)
              OtherError (fun st => st)) as [(s' & Hd & _ & Hnew & _) _].
  exists s'. split; [exact Hd|]. apply Hnew. reflexivity.
Defined.

(* ===================================================================== *)
(** * More on the API client *)
(* ===================================================================== *)

Section ApiClientOutcomes.
Variable env : option string.
Variable fetch : FetchRequest -> FetchResult.

(** Every endpoint either stops at its guard or is one call of
    [request], whose resolved value [getTasks] wraps. *)
Lemma api_cases {T : Type} (call : ApiCall T) (w : World) :
  (truthy (getUserId w) = false
   ∧ api env fetch call w = (w, Rejected (ApiError 401 "Not authenticated")))
  ∨ ∃ (userId endpoint : string) (options : RequestInit),
      getUserId w = Some userId ∧ userId ≠ EmptyString
      ∧ fst (api env fetch call w) = fst (request env fetch endpoint options w)
      ∧ (snd (api env fetch call w) = snd (request env fetch endpoint options w)
         ∨ ∃ j, snd (request env fetch endpoint options w) = Resolved j
                ∧ snd (api env fetch call w) = Resolved (JTaskList j)).
Proof.
  destruct (truthy (getUserId w)) eqn:Et.
  - right. destruct (getUserId w) as [userId|] eqn:Hu; [|discriminate].
    assert (Hne : userId ≠ EmptyString) by (by apply truthy_Some).
    destruct call; simpl;
      unfold getTasks, getTask, api_createTask, api_updateTask, api_deleteTask,
        api_toggleComplete;
      rewrite (with_user_proceeds _ _ _ Hu Hne).
    + exists userId, ("/api/" +:+ userId +:+ "/tasks"), no_options.
      split; [reflexivity|]. split; [exact Hne|].
      destruct (request env fetch _ no_options w) as [w' [j|e]]; simpl.
      * split; [reflexivity|]. right. by exists j.
      * split; [reflexivity|]. by left.
    + eexists userId, _, _. split; [reflexivity|]. split; [exact Hne|].
      split; [reflexivity|]. by left.
    + eexists userId, _, _. split; [reflexivity|]. split; [exact Hne|].
      split; [reflexivity|]. by left.
    + eexists userId, _, _. split; [reflexivity|]. split; [exact Hne|].
      split; [reflexivity|]. by left.
    + eexists userId, _, _. split; [reflexivity|]. split; [exact Hne|].
      split; [reflexivity|]. by left.
    + eexists userId, _, _. split; [reflexivity|]. split; [exact Hne|].
      split; [reflexivity|]. by left.
  - left. split; [reflexivity|]. by apply api_rejects_without_user.
Qed.


Lemma request_window (endpoint : string) (options : RequestInit) (w : World) :
  window (fst (request env fetch endpoint options w)) = window w
  ∨ ∃ detail, snd (request env fetch endpoint options w) = Rejected (ApiError 401 detail)
              ∧ window (fst (request env fetch endpoint options w)) = Some cleared_window.
Proof.
  unfold request.
  destruct (fetch _) as [|response]; [by left|].
  destruct (negb (ok response)).
  - destruct (status response =? 401) eqn:E; simpl; [|by left].
    apply Z.eqb_eq in E. rewrite E.
    unfold clear_and_redirect; simpl.
    destruct (window w) as [win|]; [|by left].
    right. eexists. split; reflexivity.
  - destruct (body response); by left.
Qed.

Lemma request_401_forgets_user (endpoint : string) (options : RequestInit)
    (w : World) (detail : string) :
  snd (request env fetch endpoint options w) = Rejected (ApiError 401 detail) →
  getUserId (fst (request env fetch endpoint options w)) = None.
Proof.
  unfold request.
  destruct (fetch _) as [|response]; [discriminate|].
  destruct (negb (ok response)).
  - simpl. intros [= E _]. rewrite E. simpl.
    unfold clear_and_redirect, getUserId; simpl.
    by destruct (window w).
  - destruct (body response); discriminate.
Qed.

End ApiClientOutcomes.



(** X8. Once a task endpoint has failed with status 401, whether at its
    own guard or on the server's answer, every later call of a task
    endpoint in the resulting world fails at the guard with 'Not
    authenticated', changes nothing and sends no request, whatever the
    network would answer. *)
Theorem after_401_no_more_requests (env : option string)
    (fetch fetch' : FetchRequest -> FetchResult) {T T' : Type}
    (call : ApiCall T) (call' : ApiCall T') (w : World) (detail : string) :
  snd (api env fetch call w) = Rejected (ApiError 401 detail) →
  let w' := fst (api env fetch call w) in
  api env fetch' call' w' = (w', Rejected (ApiError 401 "Not authenticated")).
Proof.
  intros H w'. apply api_rejects_without_user. subst w'.
  destruct (api_cases env fetch call w)
    as [[Ht E]|(userId & endpoint & options & _ & _ & Hf & [Hs|(j & _ & Hs)])].
  - by rewrite E.
  - rewrite Hf. rewrite Hs in H.
    by rewrite (request_401_forgets_user env fetch _ _ _ _ H).
  - rewrite Hs in H. discriminate.
Qed.

Lemma after_401_no_more_requests_witness :
  snd (api None (answering unauthorized) (ToggleComplete 1) logged_in)
  = Rejected (ApiError 401 "Token has expired")
  ∧ api None (answering {| status := 200; body := Text (JTaskArray []) |}) GetTasks
      (fst (api None (answering unauthorized) (ToggleComplete 1) logged_in))
    = (fst (api None (answering unauthorized) (ToggleComplete 1) logged_in),
       Rejected (ApiError 401 "Not authenticated")).
Proof.
  assert (H : snd (api None (answering unauthorized) (ToggleComplete 1) logged_in)
              = Rejected (ApiError 401 "Token has expired")) by reflexivity.
  split; [exact H|].
  exact (after_401_no_more_requests None (answering unauthorized) _
           (ToggleComplete 1) GetTasks logged_in _ H).
Defined.

Lemma request_window_server (env : option string)
    (fetch : FetchRequest -> FetchResult) (endpoint : string) (options : RequestInit)
    (w : World) :
  window (fst (request env fetch endpoint options w)) = window w
  ∨ ∃ (req : FetchRequest) (response : Response) (detail : string),
      sent (fst (request env fetch endpoint options w)) = sent w ++ [req]
      ∧ fetch req = Responded response ∧ status response = 401
      ∧ snd (request env fetch endpoint options w) = Rejected (ApiError 401 detail)
      ∧ window (fst (request env fetch endpoint options w)) = Some cleared_window.
Proof.
  pose proof (request_sends_one env fetch endpoint options w) as Hsent.
  unfold request in *.
  destruct (fetch _) as [|response] eqn:Ef; [by left|].
  destruct (negb (ok response)).
  - destruct (status response =? 401) eqn:E; simpl in *; [|by left].
    apply Z.eqb_eq in E.
    unfold clear_and_redirect in *; simpl in *.
    destruct (window w) as [win|]; [|by left].
    right. eexists _, response, _. split; [exact Hsent|]. split; [exact Ef|].
    split; [exact E|]. split; [by rewrite E | reflexivity].
  - destruct (body response); by left.
Qed.

(** X9. A task endpoint changes the stored token, the stored user and
    the location only when the server answers 401.  A call stopped at
    the guard leaves the whole world exactly as it was.  For every other
    call, either [window] is left exactly as it was (success, any other
    status, a failed fetch, an unreadable body), or a user id was
    stored, one request was sent, the server answered it with status
    401, the call is rejected with that status, and token and user are
    removed and the location is '/login'. *)
Theorem storage_changes_only_on_401 (env : option string)
    (fetch : FetchRequest -> FetchResult) {T : Type} (call : ApiCall T) (w : World) :
  (truthy (getUserId w) = false → fst (api env fetch call w) = w)
  ∧ (window (fst (api env fetch call w)) = window w
     ∨ ∃ (req : FetchRequest) (response : Response) (detail : string),
         truthy (getUserId w) = true
         ∧ sent (fst (api env fetch call w)) = sent w ++ [req]
         ∧ fetch req = Responded response ∧ status response = 401
         ∧ snd (api env fetch call w) = Rejected (ApiError 401 detail)
         ∧ window (fst (api env fetch call w)) = Some cleared_window).
Proof.
  split.
  - intros Hu. by rewrite (api_rejects_without_user env fetch call w Hu).
  - destruct (api_cases env fetch call w)
      as [[_ ->]|(userId & endpoint & options & Hu & Hne & Hf & Hs)]; [by left|].
    rewrite Hf.
    destruct (request_window_server env fetch endpoint options w)
      as [Hw|(req & response & detail & Hsent & Hfetch & Hst & Hr & Hw)]; [by left|].
    right. exists req, response, detail.
    split; [rewrite Hu; by apply truthy_Some|].
    split; [exact Hsent|]. split; [exact Hfetch|]. split; [exact Hst|].
    split; [|exact Hw].
    destruct Hs as [->|(j & Hj & _)]; [exact Hr|]. rewrite Hr in Hj. discriminate.
Qed.

Lemma storage_changes_only_on_401_witness :
  let w := {| window := Some {| localStorage_access_token := Some "jwt-alice";
                                localStorage_user := None;
                                location_href := "/dashboard" |};
              sent := [] |} in
  truthy (getUserId w) = false
  ∧ fst (api None (answering unauthorized) (ToggleComplete 1) w) = w.
Proof.
  intros w.
  assert (H : truthy (getUserId w) = false) by reflexivity.
  split; [exact H|].
  exact (proj1 (storage_changes_only_on_401 None (answering unauthorized)
                  (ToggleComplete 1) w) H).
Defined.

(** X10. In the headers of a request the caller's headers win over the
    two that [request] adds; without a caller's header of that name,
    [Content-Type] is [application/json]. *)
Theorem caller_headers_win (token : option string) (options : RequestInit) :
  (∀ (name value : string), init_headers options !! name = Some value →
     request_headers token options !! name = Some value)
  ∧ (init_headers options !! "Content-Type" = None →
     request_headers token options !! "Content-Type" = Some "application/json").
Proof.
  unfold request_headers. split.
  - intros name value H. apply lookup_union_Some_l, lookup_union_Some_l, H.
  - intros H. rewrite lookup_union_r.
    + apply lookup_singleton_eq.
    + apply lookup_union_None. split; [exact H|].
      destruct token as [t|]; [destruct (truthy (Some t))|];
        try apply lookup_empty. by apply lookup_singleton_ne.
Qed.

Lemma caller_headers_win_witness :
  let options := {| init_method := None; init_body := None;
                    init_headers := {[ "Authorization" := "Basic abc" ]} |} in
  init_headers options !! "Authorization" = Some "Basic abc"
  ∧ request_headers (Some "jwt-alice") options !! "Authorization" = Some "Basic abc"
  ∧ init_headers options !! "Content-Type" = None
  ∧ request_headers (Some "jwt-alice") options !! "Content-Type"
    = Some "application/json".
Proof.
  intros options.
  assert (H1 : init_headers options !! "Authorization" = Some "Basic abc")
    by (vm_compute; reflexivity).
  assert (H2 : init_headers options !! "Content-Type" = None)
    by (vm_compute; reflexivity).
  destruct (caller_headers_win (Some "jwt-alice") options) as [Hc Hd].
  split; [exact H1|]. split; [exact (Hc _ _ H1)|]. split; [exact H2 | exact (Hd H2)].
Defined.

(* ===================================================================== *)
(** * The hook run against the client *)
(* ===================================================================== *)

Section EndToEnd.
Variable env : option string.

Lemma run_client_await_rejected (fetch : FetchRequest -> FetchResult) {A T : Type}
    (c : ApiCall T) (k : Outcome T -> Hook A) (w w' : World) (s : HookState)
    (err : Exception) :
  api env fetch c w = (w', Rejected err) →
  run_client env fetch (Await c k) w s = run_client env fetch (k (Rejected err)) w' s.
Proof. intros H. simpl. by rewrite H. Qed.

Lemma run_client_await_resolved (fetch : FetchRequest -> FetchResult) {A T : Type}
    (c : ApiCall T) (k : Outcome T -> Hook A) (w w' : World) (s : HookState)
    (j : Json) (v : T) :
  api env fetch c w = (w', Resolved j) → as_declared c j = Some v →
  run_client env fetch (Await c k) w s = run_client env fetch (k (Resolved v)) w' s.
Proof. intros H Hv. simpl. by rewrite H, Hv. Qed.

Lemma request_offline (endpoint : string) (options : RequestInit) (w : World) :
  ∃ req, request env (fun _ => FetchFailed) endpoint options w
         = ({| window := window w; sent := sent w ++ [req] |}, Rejected OtherError).
Proof. eexists. reflexivity. Qed.



End EndToEnd.







(** X14. [fetchTasks] against the client, with a user stored: a 2xx
    answer whose body is a JSON array of tasks makes that array the
    list, clears the error text, ends loading and shows no toast; one
    request was sent, without method or body (a GET), and the browser's
    storage is untouched. *)
Theorem fetchTasks_end_to_end (env : option string) (w : World) (s : HookState)
    (userId : string) (response : Response) (l : list Task.t) :
  getUserId w = Some userId → userId ≠ EmptyString →
  ok response = true → body response = Text (JTaskArray l) →
  ∃ w', run_client env (answering response) fetchTasks w s
        = Some (w', {| tasks := l; isLoading := false; error := None;
                       toasts := toasts s |}, tt)
      ∧ window w' = window w
      ∧ ∃ req, sent w' = sent w ++ [req]
               ∧ req_method req = None ∧ req_body req = None
               ∧ url req = API_BASE env +:+ "/api/" +:+ userId +:+ "/tasks".
Proof.
  intros Hu Hne Hok Hbody.
  unfold fetchTasks, setTasks, setIsLoading, setError, await.
  cbn [bind run_client api]. unfold getTasks.
  rewrite (with_user_proceeds _ _ _ Hu Hne).
  unfold request, answering. rewrite Hok, Hbody. simpl.
  eexists. split; [reflexivity|]. split; [reflexivity|].
  eexists. repeat split.
Qed.

Lemma fetchTasks_end_to_end_witness :
  let l := [sample_task 1 "Walk" false; sample_task 2 "Read" true] in
  let response := {| status := 200; body := Text (JTaskArray l) |} in
  getUserId logged_in = Some "alice" ∧ "alice" ≠ EmptyString
  ∧ ok response = true ∧ body response = Text (JTaskArray l)
  ∧ ∃ w', run_client None (answering response) fetchTasks logged_in initial_state
          = Some (w', {| tasks := l; isLoading := false; error := None; toasts := [] |}, tt).
Proof.
  intros l response.
  split; [reflexivity|]. split; [discriminate|].
  split; [reflexivity|]. split; [reflexivity|].
  destruct (fetchTasks_end_to_end None logged_in initial_state "alice" response l
              eq_refl ltac:(discriminate) eq_refl eq_refl) as (w' & H & _).
  exists w'. exact H.
Defined.

(* ===================================================================== *)
(** * The auth provider *)
(* ===================================================================== *)

(** X15. A granted login with a non-empty user id and token resolves;
    afterwards the provider holds the user, is not loading, has set the
    cookie and pushed '/dashboard'; the API client reads back that user
    id and that token, so every task endpoint sends its request under
    [/api/<user id>/tasks] with [Authorization: Bearer <token>].  A
    granted registration stores the same. *)
Theorem login_then_api (email password name : string) (user : User.t) (token : string)
    (p : AuthPage) (env : option string) (fetch : FetchRequest -> FetchResult)
    {T : Type} (call : ApiCall T) (sent_ : list FetchRequest) :
  User.id user ≠ EmptyString → token ≠ EmptyString →
  let after := fst (login email password (AuthGranted user token) p) in
  let w := client_world after sent_ in
  snd (login email password (AuthGranted user token) p) = None
  ∧ ap_user after = Some user ∧ ap_isLoading after = false
  ∧ ap_cookie after = Some token
  ∧ ap_pushed after = ap_pushed p ++ ["/dashboard"]
  ∧ getUserId w = Some (User.id user) ∧ getAccessToken w = Some token
  ∧ (∃ (req : FetchRequest) (rest : string),
       sent (fst (api env fetch call w)) = sent_ ++ [req]
       ∧ url req = API_BASE env +:+ "/api/" +:+ User.id user +:+ "/tasks" +:+ rest
       ∧ req_headers req !! "Authorization" = Some ("Bearer " +:+ token))
  ∧ ap_window (fst (register name email password (AuthGranted user token) p))
    = ap_window after.
Proof.
  intros Hid Htok after w. subst after w. cbn.
  repeat split.
  destruct (api_sends_scoped env fetch call
              (client_world (fst (login email password (AuthGranted user token) p)) sent_)
              (User.id user) eq_refl Hid) as (req & rest & Hs & Hurl & Hh).
  exists req, rest. split; [exact Hs|]. split; [exact Hurl|].
  rewrite Hh, request_headers_authorization. cbn.
  apply truthy_Some in Htok. unfold truthy in Htok. by rewrite Htok.
Qed.

Lemma login_then_api_witness :
  User.id alice ≠ EmptyString ∧ "jwt-alice" ≠ EmptyString
  ∧ getUserId (client_world
                 (fst (login "alice@example.org" "secret"
                         (AuthGranted alice "jwt-alice") fresh_page)) [])
    = Some "alice"
  ∧ ap_user (fst (login "alice@example.org" "secret"
                    (AuthGranted alice "jwt-alice") fresh_page)) = Some alice.
Proof.
  split; [discriminate|]. split; [discriminate|].
  destruct (login_then_api "alice@example.org" "secret" "Alice" alice "jwt-alice"
              fresh_page None (answering unauthorized) GetTasks []
              ltac:(discriminate) ltac:(discriminate))
    as (_ & Hu & _ & _ & _ & Hid & _).
  split; [exact Hid | exact Hu].
Defined.

(** X16. A login or registration that is not granted changes neither
    the storage, nor the cookie, nor the user held by the provider, and
    pushes no route: it ends loading, shows one error toast and throws
    the error again.  For a refusal the text is the server's [error], or
    'Login failed' ('Registration failed') when there is none; the text
    'Invalid email or password. Please try again.' is only shown for a
    thrown value that is not an [Error]. *)
Theorem refused_login_changes_nothing (email password name : string)
    (reply : AuthReply) (p : AuthPage) :
  (∀ user token, reply ≠ AuthGranted user token) →
  let failure (failed fallback : string) : Thrown :=
    match reply with
    | AuthFetchRejected err | AuthBodyRejected err => err
    | AuthRefused error =>
        ErrorObject (match error with
                     | Some e => if String.eqb e EmptyString then failed else e
                     | None => failed
                     end)
    | AuthGranted _ _ => NotAnError
    end in
  let unchanged (result : AuthPage * option Thrown) (failed fallback : string) :=
    ap_window (fst result) = ap_window p
    ∧ ap_cookie (fst result) = ap_cookie p
    ∧ ap_user (fst result) = ap_user p
    ∧ ap_pushed (fst result) = ap_pushed p
    ∧ ap_isLoading (fst result) = false
    ∧ snd result = Some (failure failed fallback)
    ∧ ap_toasts (fst result)
      = ap_toasts p ++ [ToastErrorMsg (shown_message (failure failed fallback) fallback)] in
  unchanged (login email password reply p)
    "Login failed" "Invalid email or password. Please try again."
  ∧ unchanged (register name email password reply p)
      "Registration failed" "Registration failed. Please try again.".
Proof.
  intros Hreply failure unchanged. subst failure unchanged.
  destruct reply as [err|err|[e|]|user token]; cbn.
  - repeat split.
  - repeat split.
  - destruct (String.eqb e EmptyString); cbn; repeat split.
  - repeat split.
  - exfalso. by apply (Hreply user token).
Qed.

Lemma refused_login_changes_nothing_witness :
  (∀ user token, AuthRefused None ≠ AuthGranted user token)
  ∧ ap_window (fst (login "alice@example.org" "wrong" (AuthRefused None) fresh_page))
    = ap_window fresh_page
  ∧ ap_toasts (fst (login "alice@example.org" "wrong" (AuthRefused None) fresh_page))
    = [ToastErrorMsg "Login failed"].
Proof.
  assert (H : ∀ user token, AuthRefused None ≠ AuthGranted user token)
    by (intros ? ?; discriminate).
  split; [exact H|].
  destruct (refused_login_changes_nothing "alice@example.org" "wrong" "Alice"
              (AuthRefused None) fresh_page H)
    as [(Hw & _ & _ & _ & _ & _ & Ht) _].
  split; [exact Hw | exact Ht].
Defined.

(** X17. A logout whose request gets any response empties the storage
    and the cookie, drops the user and pushes '/': afterwards the API
    client finds neither user id nor token, every task endpoint fails at
    its guard without sending anything, and the dashboard, once not
    loading, renders nothing and redirects to '/login'.  A logout whose
    fetch promise rejects throws and clears nothing: storage, cookie and
    user stay as they were. *)
Theorem logout_ends_session (p : AuthPage) (err : Thrown) (env : option string)
    (fetch : FetchRequest -> FetchResult) {T : Type} (call : ApiCall T)
    (sent_ : list FetchRequest) :
  let after := fst (logout LogoutResponded p) in
  let w := client_world after sent_ in
  let stuck := fst (logout (LogoutFetchRejected err) p) in
  (snd (logout LogoutResponded p) = None
   ∧ ap_user after = None ∧ ap_cookie after = None
   ∧ ap_pushed after = ap_pushed p ++ ["/"]
   ∧ getUserId w = None ∧ getAccessToken w = None
   ∧ api env fetch call w = (w, Rejected (ApiError 401 "Not authenticated"))
   ∧ (ap_isLoading p = false → DashboardLayout after = (RenderNothing, Some "/login")))
  ∧ (snd (logout (LogoutFetchRejected err) p) = Some err
     ∧ ap_window stuck = ap_window p ∧ ap_cookie stuck = ap_cookie p
     ∧ ap_user stuck = ap_user p ∧ ap_toasts stuck = ap_toasts p
     ∧ ap_pushed stuck = ap_pushed p).
Proof.
  cbn. repeat split.
  - by apply api_rejects_without_user.
  - intros Hl. unfold DashboardLayout, ProtectedRoute, ProtectedRoute_effect. cbn.
    by rewrite Hl.
Qed.

Lemma logout_ends_session_witness :
  let p := fst (login "alice@example.org" "secret" (AuthGranted alice "jwt-alice")
                  fresh_page) in
  ap_isLoading p = false
  ∧ DashboardLayout p = (RenderChildren, None)
  ∧ DashboardLayout (fst (logout LogoutResponded p)) = (RenderNothing, Some "/login").
Proof.
  intros p.
  assert (Hl : ap_isLoading p = false) by reflexivity.
  split; [exact Hl|]. split; [reflexivity|].
  destruct (logout_ends_session p NotAnError None (answering unauthorized) GetTasks [])
    as [(_ & _ & _ & _ & _ & _ & _ & H) _].
  exact (H Hl).
Defined.

(** X18. The session check on mount always ends loading.  It restores a
    user exactly when a non-empty token and a readable user entry are
    both stored, and then the API client reads back the id of that very
    user and a non-empty token.  It removes the stored token and user
    only when a token is stored and the user entry is text that does not
    parse; otherwise the storage is left as it was.  The cookie is never
    touched and no route is pushed. *)
Theorem checkSession_restores (garbled : GarbledText) (win : Window)
    (cookie : option string) :
  let p := checkSession garbled (mount win cookie) in
  let w := client_world p [] in
  ap_isLoading p = false
  ∧ (∀ user, ap_user p = Some user
             ↔ truthy (localStorage_access_token win) = true
               ∧ localStorage_user win = Some (Stringified user))
  ∧ (∀ user, ap_user p = Some user →
             getUserId w = Some (User.id user) ∧ truthy (getAccessToken w) = true)
  ∧ (ap_window p = win
     ∨ (truthy (localStorage_access_token win) = true
        ∧ localStorage_user win = Some Garbled ∧ garbled = GarbledSyntax
        ∧ ap_window p = {| localStorage_access_token := None; localStorage_user := None;
                           location_href := location_href win |}))
  ∧ ap_cookie p = cookie ∧ ap_pushed p = [] ∧ ap_toasts p = [].
Proof.
  unfold checkSession, mount; cbn.
  destruct (truthy (localStorage_access_token win)) eqn:Et; cbn.
  - destruct (localStorage_user win) as [[user|]|] eqn:Eu; cbn.
    + split; [reflexivity|]. split; [|split; [|split; [by left | repeat split]]].
      * intros u. split; [intros [= ->]; by split | intros [_ [= ->]]; reflexivity].
      * intros u [= ->]. unfold getUserId, getAccessToken; cbn. by rewrite Eu.
    + destruct garbled; cbn.
      * split; [reflexivity|]. split; [|split; [|split; [by left | repeat split]]].
        -- intros u. split; [discriminate | intros [_ H]; discriminate].
        -- discriminate.
      * split; [reflexivity|]. split; [|split; [|split; [by left | repeat split]]].
        -- intros u. split; [discriminate | intros [_ H]; discriminate].
        -- discriminate.
      * split; [reflexivity|]. split; [|split; [|split; [by right | repeat split]]].
        -- intros u. split; [discriminate | intros [_ H]; discriminate].
        -- discriminate.
    + split; [reflexivity|]. split; [|split; [|split; [by left | repeat split]]].
      * intros u. split; [discriminate | intros [_ H]; discriminate].
      * discriminate.
  - split; [reflexivity|]. split; [|split; [|split; [by left | repeat split]]].
    + intros u. split; [discriminate | intros [H _]; discriminate].
    + discriminate.
Qed.

Lemma checkSession_restores_witness :
  let win := {| localStorage_access_token := Some "jwt-alice";
                localStorage_user := Some (Stringified alice);
                location_href := "/dashboard" |} in
  ap_user (checkSession GarbledEmpty (mount win None)) = Some alice
  ∧ getUserId (client_world (checkSession GarbledEmpty (mount win None)) [])
    = Some "alice".
Proof.
  intros win.
  destruct (checkSession_restores GarbledEmpty win None) as (_ & Hiff & Hread & _).
  assert (Hu : ap_user (checkSession GarbledEmpty (mount win None)) = Some alice).
  { apply Hiff. split; reflexivity. }
  split; [exact Hu|]. exact (proj1 (Hread alice Hu)).
Defined.

(** X19. [ProtectedRoute] renders its children exactly when the provider
    is not loading and holds a user, and pushes '/login' exactly when
    it is not loading and holds none; it never does both, and while
    loading it shows the fallback (or the spinner) and pushes nothing.
    On mount, before the session check, the dashboard shows the spinner. *)
Theorem protected_route_gates (fallback : bool) (p : AuthPage) :
  let ctx := AuthProvider_value p in
  (ProtectedRoute fallback ctx = RenderChildren
   ↔ ap_isLoading p = false ∧ ap_user p ≠ None)
  ∧ (ProtectedRoute_effect ctx = Some "/login"
     ↔ ap_isLoading p = false ∧ ap_user p = None)
  ∧ (ProtectedRoute_effect ctx ≠ None → ProtectedRoute fallback ctx = RenderNothing)
  ∧ (ap_isLoading p = true →
     ProtectedRoute_effect ctx = None
     ∧ ProtectedRoute fallback ctx = if fallback then RenderFallback else RenderSpinner)
  ∧ (∀ win cookie, DashboardLayout (mount win cookie) = (RenderSpinner, None)).
Proof.
  unfold ProtectedRoute, ProtectedRoute_effect, AuthProvider_value; cbn.
  destruct (ap_isLoading p), (ap_user p) as [user|], fallback; cbn;
    repeat split; try done; try (intros [? ?]; done); try (intros ?; done).
Qed.

Lemma protected_route_gates_witness :
  let p := fst (login "alice@example.org" "secret" (AuthGranted alice "jwt-alice")
                  fresh_page) in
  ap_isLoading p = false ∧ ap_user p ≠ None
  ∧ ProtectedRoute false (AuthProvider_value p) = RenderChildren.
Proof.
  intros p.
  assert (H : ap_isLoading p = false ∧ ap_user p ≠ None) by (split; [reflexivity | discriminate]).
  split; [exact (proj1 H)|]. split; [exact (proj2 H)|].
  exact (proj2 (proj1 (protected_route_gates false p)) H).
Defined.

(* ===================================================================== *)
(** * The task list component *)
(* ===================================================================== *)

Lemma list_filter_sublist (p : Task.t -> bool) (l : list Task.t) :
  List.filter p l `sublist_of` l.
Proof.
  induction l as [|t l IH]; simpl; [constructor|].
  destruct (p t); by constructor.
Qed.

Lemma list_filter_split (p : Task.t -> bool) (l : list Task.t) :
  List.filter (fun t => negb (p t)) l ++ List.filter p l ≡ₚ l.
Proof.
  induction l as [|t l IH]; simpl; [reflexivity|].
  destruct (p t); simpl.
  - rewrite <- Permutation_middle. by constructor.
  - by constructor.
Qed.

Lemma list_filter_idempotent (p : Task.t -> bool) (l : list Task.t) :
  List.filter p (List.filter p l) = List.filter p l.
Proof.
  induction l as [|t l IH]; simpl; [reflexivity|].
  destruct (p t) eqn:E; simpl; [by rewrite E, IH | exact IH].
Qed.

(** X20. The pending view and the completed view split the list: taken
    together they are a rearrangement of all tasks, each is a sub-list
    in the original order, a task is in the pending view exactly when it
    is in the list and not completed (and in the completed view exactly
    when it is completed), and filtering a view again with the same
    filter changes nothing. *)
Theorem filters_split_the_list (l : list Task.t) :
  filteredTasks FilterPending l ++ filteredTasks FilterCompleted l ≡ₚ l
  ∧ (∀ filter, filteredTasks filter l `sublist_of` l)
  ∧ (∀ t, t ∈ filteredTasks FilterPending l ↔ t ∈ l ∧ Task.is_completed t = false)
  ∧ (∀ t, t ∈ filteredTasks FilterCompleted l ↔ t ∈ l ∧ Task.is_completed t = true)
  ∧ (∀ filter, filteredTasks filter (filteredTasks filter l) = filteredTasks filter l).
Proof.
  split; [|split; [|split; [|split]]].
  - apply (list_filter_split (fun t => Task.is_completed t)).
  - intros [| |]; simpl; [reflexivity | apply list_filter_sublist..].
  - intros t. simpl. rewrite !list_elem_of_In, filter_In, negb_true_iff. reflexivity.
  - intros t. simpl. rewrite !list_elem_of_In, filter_In. reflexivity.
  - intros [| |]; simpl; [reflexivity | apply list_filter_idempotent..].
Qed.

Lemma filters_split_the_list_witness :
  let l := [sample_task 1 "Walk" false; sample_task 2 "Read" true] in
  (sample_task 2 "Read" true ∈ l ∧ Task.is_completed (sample_task 2 "Read" true) = true)
  ∧ sample_task 2 "Read" true ∈ filteredTasks FilterCompleted l.
Proof.
  intros l.
  assert (H : sample_task 2 "Read" true ∈ l
              ∧ Task.is_completed (sample_task 2 "Read" true) = true).
  { split; [|reflexivity]. right. left. }
  split; [exact H|].
  destruct (filters_split_the_list l) as (_ & _ & _ & Hc & _).
  exact (proj2 (Hc _) H).
Defined.

(** X21. What [TaskListWithFilters] shows.  When loading it shows the
    skeleton with four placeholders, whatever the list.  Otherwise it
    shows the empty state, with the message of the filter, exactly when
    the counter of [computeStats] for that filter is zero, and else one
    card per task of the view, in order, keyed by the task id; the
    number of cards is that counter, and the keys are distinct when the
    ids of the list are. *)
Theorem task_list_view (l : list Task.t) (filter : TaskFilter) (isLoading_ : option bool) :
  let view := TaskListWithFilters l filter isLoading_ in
  let counter :=
    match filter with
    | FilterAll => TaskStats.total (computeStats l)
    | FilterPending => TaskStats.pending (computeStats l)
    | FilterCompleted => TaskStats.completed (computeStats l)
    end in
  (isLoading_ = Some true → view = LoadingSkeleton [1; 2; 3; 4])
  ∧ (isLoading_ ≠ Some true →
     (counter = 0%nat ↔
      view = EmptyState (emptyMessage filter) (emptyDescription filter) "Create Task")
     ∧ (counter ≠ 0%nat →
        view = TaskCards (map (fun t => (Task.id t, t)) (filteredTasks filter l))))
  ∧ (∀ cards, view = TaskCards cards →
       length cards = counter
       ∧ map snd cards = filteredTasks filter l
       ∧ (NoDup (ids l) → NoDup (map fst cards))).
Proof.
  intros view counter.
  assert (Hc : counter = length (filteredTasks filter l)) by (by destruct filter).
  assert (Hkeys : ∀ l', map fst (map (fun t : Task.t => (Task.id t, t)) l') = ids l').
  { intros l'. unfold ids. rewrite map_map. reflexivity. }
  assert (Hsnd : ∀ l', map snd (map (fun t : Task.t => (Task.id t, t)) l') = l').
  { intros l'. rewrite map_map. apply map_id. }
  clearbody counter. subst counter view.
  unfold TaskListWithFilters, TaskList; cbn.
  split; [by intros ->|]. split.
  - intros Hl.
    assert (default false isLoading_ = false) as ->
      by (destruct isLoading_ as [[|]|]; [by destruct Hl | reflexivity..]).
    destruct (length (filteredTasks filter l)) eqn:E; cbn.
    + split; [by split | done].
    + split; [split; discriminate | done].
  - intros cards.
    destruct (default false isLoading_); [discriminate|].
    destruct (length (filteredTasks filter l)) eqn:E; cbn; [discriminate|].
    intros [= <-]. rewrite length_map, Hsnd, Hkeys. split; [exact E|]. split; [reflexivity|].
    intros Hnd. eapply sublist_NoDup; [exact Hnd|].
    unfold ids. change (map Task.id ?x) with (Task.id <$> x).
    apply fmap_sublist.
    destruct filter; simpl; [reflexivity | apply list_filter_sublist..].
Qed.

Lemma task_list_view_witness :
  let l := [sample_task 1 "Walk" false; sample_task 2 "Read" true] in
  Some false ≠ Some true
  ∧ TaskStats.pending (computeStats l) ≠ 0%nat
  ∧ TaskListWithFilters l FilterPending (Some false)
    = TaskCards [(1, sample_task 1 "Walk" false)].
Proof.
  intros l.
  assert (H1 : Some false ≠ Some true) by discriminate.
  assert (H2 : TaskStats.pending (computeStats l) ≠ 0%nat) by (simpl; lia).
  split; [exact H1|]. split; [exact H2|].
  destruct (task_list_view l FilterPending (Some false)) as (_ & H & _).
  exact (proj2 (H H1) H2).
Defined.

Lemma delete_commutes_with_filter (p : Task.t -> bool) (taskId : Z) (l : list Task.t) :
  optimistic_delete taskId (List.filter p l) = List.filter p (optimistic_delete taskId l).
Proof.
  unfold optimistic_delete.
  induction l as [|t l IH]; simpl; [reflexivity|].
  destruct (p t) eqn:Ep, (negb (Task.id t =? taskId)) eqn:Ei; simpl;
    rewrite ?Ep, ?Ei, ?IH; reflexivity.
Qed.

Lemma delete_after_toggle (taskId : Z) (l : list Task.t) :
  optimistic_delete taskId (optimistic_toggle taskId l) = optimistic_delete taskId l.
Proof.
  unfold optimistic_delete, optimistic_toggle.
  induction l as [|t l IH]; simpl; [reflexivity|].
  destruct (Task.id t =? taskId) eqn:E; simpl; rewrite ?E; simpl; by rewrite IH.
Qed.

(** X22. Toggling a task moves it between the views and disturbs no
    other card: a pending task of the list with the toggled id appears,
    completed, in the completed view of the toggled list (and a
    completed one, pending, in the pending view), while under every
    filter the cards of all other ids are the same, in the same order,
    before and after. *)
Theorem toggle_moves_between_views (taskId : Z) (l : list Task.t) :
  (∀ t, t ∈ l → Task.id t = taskId →
     (Task.is_completed t = false →
      spread_toggle t ∈ filteredTasks FilterCompleted (optimistic_toggle taskId l))
     ∧ (Task.is_completed t = true →
        spread_toggle t ∈ filteredTasks FilterPending (optimistic_toggle taskId l)))
  ∧ (∀ filter,
       optimistic_delete taskId (filteredTasks filter (optimistic_toggle taskId l))
       = optimistic_delete taskId (filteredTasks filter l)).
Proof.
  split.
  - intros t Ht Hid.
    assert (Hin : spread_toggle t ∈ optimistic_toggle taskId l).
    { unfold optimistic_toggle. change (map ?h l) with (h <$> l).
      apply list_elem_of_fmap. exists t. split; [|exact Ht].
      apply Z.eqb_eq in Hid. by rewrite Hid. }
    split; intros Hc; simpl; apply list_elem_of_In, filter_In;
      (split; [by apply list_elem_of_In|]); simpl; by rewrite Hc.
  - intros [| |]; simpl.
    + apply delete_after_toggle.
    + by rewrite !delete_commutes_with_filter, delete_after_toggle.
    + by rewrite !delete_commutes_with_filter, delete_after_toggle.
Qed.

Lemma toggle_moves_between_views_witness :
  let l := [sample_task 1 "Walk" false; sample_task 2 "Read" true] in
  sample_task 1 "Walk" false ∈ l
  ∧ sample_task 1 "Walk" true ∈ filteredTasks FilterCompleted (optimistic_toggle 1 l).
Proof.
  intros l.
  assert (H : sample_task 1 "Walk" false ∈ l) by (by left).
  split; [exact H|].
  exact (proj1 (proj1 (toggle_moves_between_views 1 l) _ H eq_refl) eq_refl).
Defined.

(* ===================================================================== *)
(** * Updaters that meet *)
(* ===================================================================== *)

Lemma optimistic_delete_insert_created (newTask : Task.t) (l : list Task.t) :
  count_id (Task.id newTask) l = 0%nat →
  optimistic_delete (Task.id newTask) (insert_created newTask l) = l.
Proof.
  intros H. unfold insert_created. rewrite existsb_count_id, H. simpl.
  unfold optimistic_delete at 1. simpl. rewrite Z.eqb_refl. simpl.
  pose proof (count_id_zero_eqb _ _ H) as Hne.
  clear H. induction l as [|t l IH]; simpl; [reflexivity|].
  rewrite (Hne t) by (by left). simpl. f_equal. apply IH.
  intros x Hx. apply Hne. by right.
Qed.

(** X23. What happens when updaters of different calls meet on one
    list.  The optimistic update and toggle commute, for equal or
    different ids.  Deleting commutes with both.  A server answer that
    arrives for a task deleted meanwhile does not bring the task back.
    And deleting a task that was just created, its id being new to the
    list, gives back the list as it was. *)
Theorem updaters_meet (l : list Task.t) (i j : Z) (data : UpdateTaskRequest.t)
    (confirmed newTask : Task.t) :
  optimistic_toggle i (optimistic_update j data l)
  = optimistic_update j data (optimistic_toggle i l)
  ∧ optimistic_delete i (optimistic_update j data l)
    = optimistic_update j data (optimistic_delete i l)
  ∧ optimistic_delete i (optimistic_toggle j l)
    = optimistic_toggle j (optimistic_delete i l)
  ∧ replace_confirmed i confirmed (optimistic_delete i l) = optimistic_delete i l
  ∧ (count_id (Task.id newTask) l = 0%nat →
     optimistic_delete (Task.id newTask) (insert_created newTask l) = l).
Proof.
  split; [|split; [|split; [|split]]].
  - unfold optimistic_toggle, optimistic_update. rewrite !map_map. apply map_ext.
    intros t. destruct (Task.id t =? j) eqn:Ej, (Task.id t =? i) eqn:Ei; simpl;
      rewrite ?Ej, ?Ei; reflexivity.
  - unfold optimistic_delete, optimistic_update.
    induction l as [|t l IH]; simpl; [reflexivity|].
    destruct (Task.id t =? j) eqn:Ej, (Task.id t =? i) eqn:Ei; simpl;
      rewrite ?Ej, ?Ei; simpl; by rewrite IH.
  - unfold optimistic_delete, optimistic_toggle.
    induction l as [|t l IH]; simpl; [reflexivity|].
    destruct (Task.id t =? j) eqn:Ej, (Task.id t =? i) eqn:Ei; simpl;
      rewrite ?Ej, ?Ei; simpl; by rewrite IH.
  - unfold replace_confirmed. apply map_if_none.
    intros t Ht. apply optimistic_delete_elem in Ht as [_ Ht]. by apply Z.eqb_neq.
  - apply optimistic_delete_insert_created.
Qed.

Lemma updaters_meet_witness :
  let l := [sample_task 1 "Walk" false] in
  count_id 2 l = 0%nat
  ∧ optimistic_delete 2 (insert_created (sample_task 2 "Buy milk" false) l) = l.
Proof.
  intros l.
  assert (H : count_id 2 l = 0%nat) by reflexivity.
  split; [exact H|].
  exact (proj2 (proj2 (proj2 (proj2
           (updaters_meet l 1 1 (rename_to "Run") (sample_task 1 "Run" false)
              (sample_task 2 "Buy milk" false))))) H).
Defined.

(* ===================================================================== *)
(** * Paths of the task endpoints *)
(* ===================================================================== *)

Lemma string_app_same_length (s1 s2 t1 t2 : string) :
  String.length s1 = String.length s2 → s1 +:+ t1 = s2 +:+ t2 → s1 = s2.
Proof.
  revert s2. induction s1 as [|a s1 IH]; intros [|b s2]; simpl; try discriminate.
  - reflexivity.
  - intros [= Hlen] [= -> H]. f_equal. by apply IH.
Qed.

Lemma string_length_app (s t : string) :
  String.length (s +:+ t) = (String.length s + String.length t)%nat.
Proof. induction s as [|a s IH]; simpl; [reflexivity | by f_equal]. Qed.

Lemma string_app_assoc (s t u : string) : (s +:+ t) +:+ u = s +:+ t +:+ u.
Proof.
  induction s as [|a s IH]; [reflexivity|].
  change (String a ((s +:+ t) +:+ u) = String a (s +:+ t +:+ u)). by f_equal.
Qed.

Lemma string_app_inj_r (s1 s2 t : string) : s1 +:+ t = s2 +:+ t → s1 = s2.
Proof.
  intros H. apply (string_app_same_length s1 s2 t t); [|exact H].
  apply (f_equal String.length) in H. rewrite !string_length_app in H. lia.
Qed.

(** X24. For one stored user, the endpoints that address a single task
    use different URLs for different task ids: for two different ids in
    the range of safe integers, the two calls of [getTask], of
    [updateTask], of [deleteTask] and of [toggleComplete] each send one
    request, and the two requests go to different URLs. *)
Theorem task_urls_tell_ids_apart (env : option string)
    (fetch : FetchRequest -> FetchResult) (w : World) (userId : string) (a b : Z)
    (da db : UpdateTaskRequest.t) :
  getUserId w = Some userId → userId ≠ EmptyString →
  safe_integer a → safe_integer b → a ≠ b →
  let differ {T : Type} (ca cb : ApiCall T) :=
    ∃ ra rb, sent (fst (api env fetch ca w)) = sent w ++ [ra]
             ∧ sent (fst (api env fetch cb w)) = sent w ++ [rb]
             ∧ url ra ≠ url rb in
  differ (GetTask a) (GetTask b)
  ∧ differ (UpdateTask a da) (UpdateTask b db)
  ∧ differ (DeleteTask a) (DeleteTask b)
  ∧ differ (ToggleComplete a) (ToggleComplete b).
Proof.
  intros Hu Hne _ _ Hab differ. subst differ. cbn beta.
  assert (Hplain : ∀ x y : Z,
            API_BASE env +:+ "/api/" +:+ userId +:+ "/tasks/" +:+ pretty x
            = API_BASE env +:+ "/api/" +:+ userId +:+ "/tasks/" +:+ pretty y → x = y).
  { intros x y H. do 4 apply String.app_inj in H. by apply pretty_Z_inj in H. }
  simpl. unfold getTask, api_updateTask, api_deleteTask, api_toggleComplete.
  rewrite !(with_user_proceeds _ _ _ Hu Hne), !request_sends_one.
  repeat split; eexists _, _; (split; [reflexivity|]); (split; [reflexivity|]);
    simpl; intros Hurl; apply Hab.
  - by apply Hplain.
  - by apply Hplain.
  - by apply Hplain.
  - apply Hplain.
    apply (string_app_inj_r _ _ "/complete").
    by rewrite !string_app_assoc.
Qed.

Lemma task_urls_tell_ids_apart_witness :
  getUserId logged_in = Some "alice" ∧ "alice" ≠ EmptyString
  ∧ safe_integer 3 ∧ safe_integer 4 ∧ 3 ≠ 4
  ∧ ∃ ra rb, sent (fst (api None (answering unauthorized) (DeleteTask 3) logged_in))
             = sent logged_in ++ [ra]
             ∧ sent (fst (api None (answering unauthorized) (DeleteTask 4) logged_in))
               = sent logged_in ++ [rb]
             ∧ url ra ≠ url rb.
Proof.
  assert (H3 : safe_integer 3) by (unfold safe_integer; lia).
  assert (H4 : safe_integer 4) by (unfold safe_integer; lia).
  split; [reflexivity|]. split; [discriminate|].
  split; [exact H3|]. split; [exact H4|]. split; [lia|].
  exact (proj1 (proj2 (proj2 (task_urls_tell_ids_apart None (answering unauthorized)
           logged_in "alice" 3 4 (rename_to "a") (rename_to "b")
           eq_refl ltac:(discriminate) H3 H4 ltac:(lia))))).
Defined.
